(** * backend-parking: the slot reservation engine of [server.js]

    A shallow embedding of the route handlers of [src/server.js] that touch
    the [parking_areas], [slots] and [bookings] collections, and the
    properties of the reservation engine stated about them.

    Modelling conventions.
    - A MongoDB collection is the list of its documents in natural
      (insertion) order; [findOne] and [updateOne] act on the first document
      that matches the filter, [deleteMany] on all of them.
    - Every [await db.collection(..).op(..)] is one atomic store operation.
      A handler is a program of such operations ([prog]); [exec] runs one
      handler to completion, [run_schedule] interleaves several handlers at
      their [await] points, as the Node event loop does.
    - A store operation may throw; the handler's [try { } catch] turns the
      exception into the 500 response and skips the rest of the handler.
      The driver's [insertMany] rejects an empty batch ("Invalid
      BulkOperation, Batch cannot be empty"; "Invalid Operation, no
      operations specified" in older drivers).
    - Request bodies are taken decoded and well-typed: identifiers are
      ObjectIds, vehicle types and plates are strings, counts and amounts are
      integers, dates are milliseconds since the epoch. [new Date()] is the
      argument [now] of a handler.
    - JS numbers that the engine counts with are [Z]; the counters are
      changed by [$inc] and can become negative. *)

From Stdlib Require Import List ZArith Lia Bool String Ascii Arith.
From Stdlib Require Import Sorting.Sorted Sorting.Permutation.
Import ListNotations.

Open Scope string_scope.
Open Scope Z_scope.
Open Scope list_scope.

(** ** Values *)

Definition ObjectId := nat.
Definition Date := Z.

Record Location := { lat : Z; lng : Z }.

Inductive SlotStatus := available | booked.
Inductive BookingStatus := active | completed.

Definition slot_status_eqb (a b : SlotStatus) : bool :=
  match a, b with
  | available, available | booked, booked => true
  | _, _ => false
  end.

Definition booking_status_eqb (a b : BookingStatus) : bool :=
  match a, b with
  | active, active | completed, completed => true
  | _, _ => false
  end.

(** [String.prototype.toLowerCase] on the ASCII range. *)
Definition lower_ascii (c : ascii) : ascii :=
  let n := nat_of_ascii c in
  if ((65 <=? n)%nat && (n <=? 90)%nat)%bool then ascii_of_nat (n + 32) else c.

Fixpoint toLowerCase (s : string) : string :=
  match s with
  | EmptyString => EmptyString
  | String c r => String (lower_ascii c) (toLowerCase r)
  end.

(** ** Documents *)

Module Area.
Record t := {
  _id : ObjectId;
  name : string;
  location : Location;
  total_car_slots : Z;
  available_car_slots : Z;
  booked_car_slots : Z;
  total_bike_slots : Z;
  available_bike_slots : Z;
  booked_bike_slots : Z;
  createdAt : Date;
  updatedAt : option Date
}.
End Area.

Module Slot.
Record t := {
  _id : ObjectId;
  parking_id : ObjectId;
  slot_number : Z;
  vehicle_type : string;
  status : SlotStatus;
  current_booking_id : option ObjectId
}.
End Slot.

Module Booking.
Record t := {
  _id : ObjectId;
  parking_id : ObjectId;
  slot_id : ObjectId;
  vehicle_type : string;
  number_plate : string;
  phone : string;
  entry_time : Date;
  status : BookingStatus;
  createdAt : Date;
  exit_time : option Date;
  amount : option Z;
  updatedAt : option Date
}.
End Booking.

Module Owner.
Record t := {
  _id : ObjectId;
  phone : string;
  parking_area_name : string;
  password : string;
  createdAt : Date;
  updatedAt : option Date
}.
End Owner.

(** The database: the four collections and the supply of fresh ObjectIds. *)
Record DB := {
  parking_areas : list Area.t;
  slots : list Slot.t;
  bookings : list Booking.t;
  register_login : list Owner.t;
  next_oid : ObjectId
}.

(** ** Request bodies *)

Module BookReq.
Record t := {
  parking_id : ObjectId;
  slot_id : ObjectId;
  vehicle_type : string;
  number_plate : string;
  entry_time : Date;
  phone : string
}.
End BookReq.

Module CompleteReq.
Record t := {
  slot_id : ObjectId;
  parking_id : ObjectId;
  vehicle_type : string;
  exit_time : Date;
  amount : Z
}.
End CompleteReq.

Module AreaReq.
Record t := {
  name : string;
  parking_area_name : string;
  location : Location;
  total_car_slots : Z;
  total_bike_slots : Z
}.
End AreaReq.

(** ** Responses *)

(** A booking of the history listing: the stored document spread, then the
    two display fields; [slot_number] is a number or the placeholder text. *)
Record PopulatedBooking := {
  booking : Booking.t;
  location : string;
  slot_number : Z + string
}.

(** A response is its HTTP status and its JSON body. *)
Inductive Body :=
| Message (message : string)
| SlotBooked (message : string) (booking_id : ObjectId) (slot_number : Z)
| AreaCreated (message : string) (id : ObjectId)
| BookingList (populatedBookings : list PopulatedBooking)
| ServerError (message : string) (error : string).

Definition Response := (Z * Body)%type.

(** ** Collection primitives *)

Section Collection.
Context {A : Type}.

Definition findOne (p : A -> bool) (l : list A) : option A := find p l.

Fixpoint updateOne (p : A -> bool) (f : A -> A) (l : list A) : list A :=
  match l with
  | [] => []
  | x :: r => if p x then f x :: r else x :: updateOne p f r
  end.

Definition matchedCount (p : A -> bool) (l : list A) : Z :=
  if existsb p l then 1 else 0.

Definition deleteMany (p : A -> bool) (l : list A) : list A :=
  filter (fun x => negb (p x)) l.

(** A batch of documents that still lack their [_id]: the driver gives
    them consecutive fresh ones. *)
Fixpoint assign_ids (n : ObjectId) (docs : list (ObjectId -> A)) : list A :=
  match docs with
  | [] => []
  | d :: r => d n :: assign_ids (S n) r
  end.
End Collection.

(** [Array.from({ length: n }, (_, i) => f i)]; a negative length gives the
    empty array. *)
Definition array_from {A : Type} (n : Z) (f : nat -> A) : list A :=
  map f (seq 0 (Z.to_nat n)).

(** ** Handlers as programs of atomic store operations *)

Definition StoreOp (X : Type) := DB -> string + (X * DB).

Inductive prog (R : Type) : Type :=
| Ret : R -> prog R
| Await : forall X : Type, StoreOp X -> (X -> prog R) -> prog R.

Arguments Ret {R} _.
Arguments Await {R X} _ _.

Fixpoint bind {A B : Type} (p : prog A) (f : A -> prog B) : prog B :=
  match p with
  | Ret a => f a
  | Await op k => Await op (fun x => bind (k x) f)
  end.

Notation "'await' x <- op ;; k" := (Await op (fun x => k))
  (at level 10, x name, op at level 100, k at level 200).

Definition server_error (e : string) : Response :=
  (500, ServerError "Server error" e).

(** One handler run to completion, its [catch] included. *)
Fixpoint exec (p : prog Response) (db : DB) : Response * DB :=
  match p with
  | Ret r => (r, db)
  | Await op k =>
      match op db with
      | inl e => (server_error e, db)
      | inr (x, db') => exec (k x) db'
      end
  end.

(** A program of any result type run to its end or to the first exception;
    the store is the one reached. *)
Fixpoint run {A : Type} (p : prog A) (db : DB) : (string + A) * DB :=
  match p with
  | Ret a => (inr a, db)
  | Await op k =>
      match op db with
      | inl e => (inl e, db)
      | inr (x, db') => run (k x) db'
      end
  end.

(** One [await] of a handler. *)
Definition step (p : prog Response) (db : DB) : prog Response * DB :=
  match p with
  | Ret r => (Ret r, db)
  | Await op k =>
      match op db with
      | inl e => (Ret (server_error e), db)
      | inr (x, db') => (k x, db')
      end
  end.

Fixpoint set_nth {A : Type} (i : nat) (x : A) (l : list A) : list A :=
  match l, i with
  | [], _ => []
  | _ :: r, O => x :: r
  | y :: r, S j => y :: set_nth j x r
  end.

(** Requests in flight, interleaved by a schedule: each entry names the
    handler whose next [await] runs. *)
Fixpoint run_schedule (sched : list nat) (pool : list (prog Response)) (db : DB)
  : list (prog Response) * DB :=
  match sched with
  | [] => (pool, db)
  | i :: rest =>
      match nth_error pool i with
      | None => run_schedule rest pool db
      | Some p =>
          let '(p', db') := step p db in
          run_schedule rest (set_nth i p' pool) db'
      end
  end.

Definition finished (p : prog Response) : option Response :=
  match p with
  | Ret r => Some r
  | Await _ _ => None
  end.

(** ** Filters and update documents *)

Definition area_by_id (i : ObjectId) (a : Area.t) : bool := Nat.eqb (Area._id a) i.
Definition area_by_name (n : string) (a : Area.t) : bool := String.eqb (Area.name a) n.
Definition slot_by_id (i : ObjectId) (s : Slot.t) : bool := Nat.eqb (Slot._id s) i.
Definition slot_by_parking (i : ObjectId) (s : Slot.t) : bool :=
  Nat.eqb (Slot.parking_id s) i.
Definition owner_by_phone (p : string) (o : Owner.t) : bool :=
  String.eqb (Owner.phone o) p.
Definition booking_by_phone (p : string) (b : Booking.t) : bool :=
  String.eqb (Booking.phone b) p.

(** [{ slot_id: .., status: "active" }] *)
Definition booking_active_on (i : ObjectId) (b : Booking.t) : bool :=
  Nat.eqb (Booking.slot_id b) i && booking_status_eqb (Booking.status b) active.

(** [{ $set: { status: .., current_booking_id: .. } }] *)
Definition slot_set (st : SlotStatus) (bk : option ObjectId) (s : Slot.t) : Slot.t :=
  {| Slot._id := Slot._id s;
     Slot.parking_id := Slot.parking_id s;
     Slot.slot_number := Slot.slot_number s;
     Slot.vehicle_type := Slot.vehicle_type s;
     Slot.status := st;
     Slot.current_booking_id := bk |}.

(** [{ $inc: { available_car_slots: da, booked_car_slots: db } }] *)
Definition inc_car (da db : Z) (a : Area.t) : Area.t :=
  {| Area._id := Area._id a;
     Area.name := Area.name a;
     Area.location := Area.location a;
     Area.total_car_slots := Area.total_car_slots a;
     Area.available_car_slots := Area.available_car_slots a + da;
     Area.booked_car_slots := Area.booked_car_slots a + db;
     Area.total_bike_slots := Area.total_bike_slots a;
     Area.available_bike_slots := Area.available_bike_slots a;
     Area.booked_bike_slots := Area.booked_bike_slots a;
     Area.createdAt := Area.createdAt a;
     Area.updatedAt := Area.updatedAt a |}.

(** [{ $inc: { available_bike_slots: da, booked_bike_slots: db } }] *)
Definition inc_bike (da db : Z) (a : Area.t) : Area.t :=
  {| Area._id := Area._id a;
     Area.name := Area.name a;
     Area.location := Area.location a;
     Area.total_car_slots := Area.total_car_slots a;
     Area.available_car_slots := Area.available_car_slots a;
     Area.booked_car_slots := Area.booked_car_slots a;
     Area.total_bike_slots := Area.total_bike_slots a;
     Area.available_bike_slots := Area.available_bike_slots a + da;
     Area.booked_bike_slots := Area.booked_bike_slots a + db;
     Area.createdAt := Area.createdAt a;
     Area.updatedAt := Area.updatedAt a |}.

(** [{ $set: { location, total_car_slots, total_bike_slots, updatedAt } }] *)
Definition set_capacity (loc : Location) (tc tb : Z) (now : Date) (a : Area.t)
  : Area.t :=
  {| Area._id := Area._id a;
     Area.name := Area.name a;
     Area.location := loc;
     Area.total_car_slots := tc;
     Area.available_car_slots := Area.available_car_slots a;
     Area.booked_car_slots := Area.booked_car_slots a;
     Area.total_bike_slots := tb;
     Area.available_bike_slots := Area.available_bike_slots a;
     Area.booked_bike_slots := Area.booked_bike_slots a;
     Area.createdAt := Area.createdAt a;
     Area.updatedAt := Some now |}.

(** [{ $set: { available_car_slots: tc, booked_car_slots: 0,
               available_bike_slots: tb, booked_bike_slots: 0 } }] *)
Definition reset_counters (tc tb : Z) (a : Area.t) : Area.t :=
  {| Area._id := Area._id a;
     Area.name := Area.name a;
     Area.location := Area.location a;
     Area.total_car_slots := Area.total_car_slots a;
     Area.available_car_slots := tc;
     Area.booked_car_slots := 0;
     Area.total_bike_slots := Area.total_bike_slots a;
     Area.available_bike_slots := tb;
     Area.booked_bike_slots := 0;
     Area.createdAt := Area.createdAt a;
     Area.updatedAt := Area.updatedAt a |}.

(** [{ $set: { status: "completed", exit_time, amount, updatedAt } }] *)
Definition set_completed (exit : Date) (amt : Z) (now : Date) (b : Booking.t)
  : Booking.t :=
  {| Booking._id := Booking._id b;
     Booking.parking_id := Booking.parking_id b;
     Booking.slot_id := Booking.slot_id b;
     Booking.vehicle_type := Booking.vehicle_type b;
     Booking.number_plate := Booking.number_plate b;
     Booking.phone := Booking.phone b;
     Booking.entry_time := Booking.entry_time b;
     Booking.status := completed;
     Booking.createdAt := Booking.createdAt b;
     Booking.exit_time := Some exit;
     Booking.amount := Some amt;
     Booking.updatedAt := Some now |}.

(** [{ $set: { parking_area_name, updatedAt } }] *)
Definition set_owner_area (n : string) (now : Date) (o : Owner.t) : Owner.t :=
  {| Owner._id := Owner._id o;
     Owner.phone := Owner.phone o;
     Owner.parking_area_name := n;
     Owner.password := Owner.password o;
     Owner.createdAt := Owner.createdAt o;
     Owner.updatedAt := Some now |}.

(** The slot documents generated for an area. *)
Definition new_slot (parkingId : ObjectId) (vt : string) (i : nat) (id : ObjectId)
  : Slot.t :=
  {| Slot._id := id;
     Slot.parking_id := parkingId;
     Slot.slot_number := Z.of_nat i + 1;
     Slot.vehicle_type := vt;
     Slot.status := available;
     Slot.current_booking_id := None |}.

(** ** Store operations *)

Definition with_areas (l : list Area.t) (db : DB) : DB :=
  {| parking_areas := l; slots := slots db; bookings := bookings db;
     register_login := register_login db; next_oid := next_oid db |}.

Definition with_slots (l : list Slot.t) (db : DB) : DB :=
  {| parking_areas := parking_areas db; slots := l; bookings := bookings db;
     register_login := register_login db; next_oid := next_oid db |}.

Definition with_bookings (l : list Booking.t) (db : DB) : DB :=
  {| parking_areas := parking_areas db; slots := slots db; bookings := l;
     register_login := register_login db; next_oid := next_oid db |}.

Definition with_owners (l : list Owner.t) (db : DB) : DB :=
  {| parking_areas := parking_areas db; slots := slots db; bookings := bookings db;
     register_login := l; next_oid := next_oid db |}.

Definition with_next_oid (n : ObjectId) (db : DB) : DB :=
  {| parking_areas := parking_areas db; slots := slots db; bookings := bookings db;
     register_login := register_login db; next_oid := n |}.

Definition areas_findOne (p : Area.t -> bool) : StoreOp (option Area.t) :=
  fun db => inr (findOne p (parking_areas db), db).

Definition slots_findOne (p : Slot.t -> bool) : StoreOp (option Slot.t) :=
  fun db => inr (findOne p (slots db), db).

Definition areas_updateOne (p : Area.t -> bool) (f : Area.t -> Area.t) : StoreOp Z :=
  fun db => inr (matchedCount p (parking_areas db),
                 with_areas (updateOne p f (parking_areas db)) db).

Definition slots_updateOne (p : Slot.t -> bool) (f : Slot.t -> Slot.t) : StoreOp Z :=
  fun db => inr (matchedCount p (slots db),
                 with_slots (updateOne p f (slots db)) db).

Definition bookings_updateOne (p : Booking.t -> bool) (f : Booking.t -> Booking.t)
  : StoreOp Z :=
  fun db => inr (matchedCount p (bookings db),
                 with_bookings (updateOne p f (bookings db)) db).

Definition owners_updateOne (p : Owner.t -> bool) (f : Owner.t -> Owner.t) : StoreOp Z :=
  fun db => inr (matchedCount p (register_login db),
                 with_owners (updateOne p f (register_login db)) db).

Definition bookings_insertOne (doc : ObjectId -> Booking.t) : StoreOp ObjectId :=
  fun db => inr (next_oid db,
                 with_next_oid (S (next_oid db))
                   (with_bookings (bookings db ++ [doc (next_oid db)]) db)).

Definition areas_insertOne (doc : ObjectId -> Area.t) : StoreOp ObjectId :=
  fun db => inr (next_oid db,
                 with_next_oid (S (next_oid db))
                   (with_areas (parking_areas db ++ [doc (next_oid db)]) db)).

Definition slots_deleteMany (p : Slot.t -> bool) : StoreOp unit :=
  fun db => inr (tt, with_slots (deleteMany p (slots db)) db).

Definition slots_insertMany (docs : list (ObjectId -> Slot.t)) : StoreOp unit :=
  fun db =>
    match docs with
    | [] => inl "Invalid BulkOperation, Batch cannot be empty"
    | _ => inr (tt,
                with_next_oid (next_oid db + List.length docs)%nat
                  (with_slots (slots db ++ assign_ids (next_oid db) docs) db))
    end.

(** [.sort({ entry_time: -1 })], as an insertion sort. *)
Fixpoint insert_desc (b : Booking.t) (l : list Booking.t) : list Booking.t :=
  match l with
  | [] => [b]
  | x :: r =>
      if Booking.entry_time x <=? Booking.entry_time b
      then b :: x :: r
      else x :: insert_desc b r
  end.

Fixpoint sort_entry_time_desc (l : list Booking.t) : list Booking.t :=
  match l with
  | [] => []
  | b :: r => insert_desc b (sort_entry_time_desc r)
  end.

Definition bookings_find_sorted (p : Booking.t -> bool) : StoreOp (list Booking.t) :=
  fun db => inr (sort_entry_time_desc (filter p (bookings db)), db).

(** ** The route handlers *)

(** The [booking] document of a reservation, before [insertOne] gives it
    its [_id]. *)
Definition booking_doc (req : BookReq.t) (now : Date) (id : ObjectId) : Booking.t :=
  {| Booking._id := id;
     Booking.parking_id := BookReq.parking_id req;
     Booking.slot_id := BookReq.slot_id req;
     Booking.vehicle_type := toLowerCase (BookReq.vehicle_type req);
     Booking.number_plate := BookReq.number_plate req;
     Booking.phone := BookReq.phone req;
     Booking.entry_time := BookReq.entry_time req;
     Booking.status := active;
     Booking.createdAt := now;
     Booking.exit_time := None;
     Booking.amount := None;
     Booking.updatedAt := None |}.

(** The [parkingArea] document of a new area. *)
Definition area_doc (req : AreaReq.t) (now : Date) (id : ObjectId) : Area.t :=
  {| Area._id := id;
     Area.name := AreaReq.parking_area_name req;
     Area.location := AreaReq.location req;
     Area.total_car_slots := AreaReq.total_car_slots req;
     Area.available_car_slots := AreaReq.total_car_slots req;
     Area.booked_car_slots := 0;
     Area.total_bike_slots := AreaReq.total_bike_slots req;
     Area.available_bike_slots := AreaReq.total_bike_slots req;
     Area.booked_bike_slots := 0;
     Area.createdAt := now;
     Area.updatedAt := None |}.

(** [POST /api/bookings]; [POST /api/owner/bookings] has the same body. *)
Definition post_bookings (req : BookReq.t) (now : Date) : prog Response :=
  await slot <- slots_findOne (slot_by_id (BookReq.slot_id req)) ;;
  match slot with
  | None => Ret (400, Message "Slot not available")
  | Some slot =>
      if negb (slot_status_eqb (Slot.status slot) available)
      then Ret (400, Message "Slot not available")
      else
        let booking := booking_doc req now in
        await insertedId <- bookings_insertOne booking ;;
        await _ <- slots_updateOne (slot_by_id (BookReq.slot_id req))
               (slot_set booked (Some insertedId)) ;;
        let updateField :=
          if String.eqb (toLowerCase (BookReq.vehicle_type req)) "car"
          then inc_car (-1) 1
          else inc_bike (-1) 1 in
        await _ <- areas_updateOne (area_by_id (BookReq.parking_id req)) updateField ;;
        Ret (200, SlotBooked "Slot booked" insertedId (Slot.slot_number slot))
  end.

(** [POST /api/owner/bookings/complete] *)
Definition post_owner_bookings_complete (req : CompleteReq.t) (now : Date)
  : prog Response :=
  await matched <- bookings_updateOne (booking_active_on (CompleteReq.slot_id req))
               (set_completed (CompleteReq.exit_time req) (CompleteReq.amount req) now) ;;
  if matched =? 0
  then Ret (400, Message "No active booking found")
  else
    await _ <- slots_updateOne (slot_by_id (CompleteReq.slot_id req))
           (slot_set available None) ;;
    let updateField :=
      if String.eqb (toLowerCase (CompleteReq.vehicle_type req)) "car"
      then inc_car 1 (-1)
      else inc_bike 1 (-1) in
    await _ <- areas_updateOne (area_by_id (CompleteReq.parking_id req)) updateField ;;
    Ret (200, Message "Booking completed and slot freed").

(** [POST /api/owner/parking_areas] *)
Definition post_owner_parking_areas (req : AreaReq.t) (now : Date) : prog Response :=
  let parking_area_name := AreaReq.parking_area_name req in
  let total_car_slots := AreaReq.total_car_slots req in
  let total_bike_slots := AreaReq.total_bike_slots req in
  await existingArea <- areas_findOne (area_by_name parking_area_name) ;;
  match existingArea with
  | Some existingArea =>
      let currentCarSlots := Area.total_car_slots existingArea in
      let currentBikeSlots := Area.total_bike_slots existingArea in
      let carSlotsChanged := negb (total_car_slots =? currentCarSlots) in
      let bikeSlotsChanged := negb (total_bike_slots =? currentBikeSlots) in
      await _ <- areas_updateOne (area_by_name parking_area_name)
             (set_capacity (AreaReq.location req) total_car_slots total_bike_slots now) ;;
      await _ <- owners_updateOne (owner_by_phone (AreaReq.name req))
             (set_owner_area parking_area_name now) ;;
      if carSlotsChanged || bikeSlotsChanged
      then
        let parkingId := Area._id existingArea in
        await _ <- slots_deleteMany (slot_by_parking parkingId) ;;
        let newCarSlots := array_from total_car_slots (new_slot parkingId "car") in
        let newBikeSlots := array_from total_bike_slots (new_slot parkingId "bike") in
        await _ <- slots_insertMany (newCarSlots ++ newBikeSlots) ;;
        await _ <- areas_updateOne (area_by_id parkingId)
               (reset_counters total_car_slots total_bike_slots) ;;
        Ret (200, Message "Parking area updated successfully")
      else Ret (200, Message "Parking area updated successfully")
  | None =>
      let parkingArea := area_doc req now in
      await insertedId <- areas_insertOne parkingArea ;;
      await _ <- owners_updateOne (owner_by_phone (AreaReq.name req))
             (set_owner_area parking_area_name now) ;;
      let carSlots := array_from total_car_slots (new_slot insertedId "car") in
      let bikeSlots := array_from total_bike_slots (new_slot insertedId "bike") in
      await _ <- slots_insertMany (carSlots ++ bikeSlots) ;;
      Ret (200, AreaCreated "Parking area created" insertedId)
  end.

(** [GET /api/users/bookings/:phone] *)
Definition populate (booking : Booking.t) : prog PopulatedBooking :=
  await parkingArea <- areas_findOne (area_by_id (Booking.parking_id booking)) ;;
  await slot <- slots_findOne (slot_by_id (Booking.slot_id booking)) ;;
  Ret {| booking := booking;
         location := match parkingArea with
                     | Some a => Area.name a
                     | None => "Unknown Location"
                     end;
         slot_number := match slot with
                        | Some s => inl (Slot.slot_number s)
                        | None => inr "Unknown Slot"
                        end |}.

Fixpoint populate_all (bookings : list Booking.t) : prog (list PopulatedBooking) :=
  match bookings with
  | [] => Ret []
  | b :: r =>
      bind (populate b) (fun pb =>
      bind (populate_all r) (fun rest => Ret (pb :: rest)))
  end.

Definition get_users_bookings (phone : string) : prog Response :=
  await bookings <- bookings_find_sorted (booking_by_phone phone) ;;
  bind (populate_all bookings) (fun populatedBookings =>
  Ret (200, BookingList populatedBookings)).

(** ** The engine operations: a handler run alone *)

Definition ReserveSlot (req : BookReq.t) (now : Date) (db : DB) : Response * DB :=
  exec (post_bookings req now) db.

Definition CompleteBooking (req : CompleteReq.t) (now : Date) (db : DB)
  : Response * DB :=
  exec (post_owner_bookings_complete req now) db.

Definition CreateOrResizeArea (req : AreaReq.t) (now : Date) (db : DB)
  : Response * DB :=
  exec (post_owner_parking_areas req now) db.

Definition ListUserBookings (phone : string) (db : DB) : Response * DB :=
  exec (get_users_bookings phone) db.

(** ** Properties of the data model *)

(** The counters of one vehicle type, as (available, booked). *)
Definition car_counters (a : Area.t) : Z * Z :=
  (Area.available_car_slots a, Area.booked_car_slots a).

Definition bike_counters (a : Area.t) : Z * Z :=
  (Area.available_bike_slots a, Area.booked_bike_slots a).

(** [available + booked == total], for both vehicle types of an area. *)
Definition area_balanced (a : Area.t) : Prop :=
  Area.available_car_slots a + Area.booked_car_slots a = Area.total_car_slots a /\
  Area.available_bike_slots a + Area.booked_bike_slots a = Area.total_bike_slots a.

Definition inventory_balanced (db : DB) : Prop :=
  Forall area_balanced (parking_areas db).

(** What MongoDB guarantees of [_id]: unique in a collection, and a generated
    one is fresh. *)
Definition slot_ids_wf (db : DB) : Prop :=
  NoDup (map Slot._id (slots db)) /\
  Forall (fun s => (Slot._id s < next_oid db)%nat) (slots db).


(** The slots of an area for one vehicle type, in collection order. *)
Definition slots_of (parkingId : ObjectId) (vt : string) (db : DB) : list Slot.t :=
  filter (fun s => slot_by_parking parkingId s && String.eqb (Slot.vehicle_type s) vt)
         (slots db).

(** The bookings history is newest first. *)
Definition newer_or_same (a b : Booking.t) : Prop :=
  Booking.entry_time b <= Booking.entry_time a.

(** The listing entry of a booking, read off a store. *)
Definition display_of (db : DB) (b : Booking.t) : PopulatedBooking :=
  {| booking := b;
     location := match findOne (area_by_id (Booking.parking_id b)) (parking_areas db) with
                 | Some a => Area.name a
                 | None => "Unknown Location"
                 end;
     slot_number := match findOne (slot_by_id (Booking.slot_id b)) (slots db) with
                    | Some s => inl (Slot.slot_number s)
                    | None => inr "Unknown Slot"
                    end |}.

(** The test of the resize branch: a requested total differs from the
    stored one. *)
Definition capacity_changed (req : AreaReq.t) (a : Area.t) : bool :=
  negb (AreaReq.total_car_slots req =? Area.total_car_slots a) ||
  negb (AreaReq.total_bike_slots req =? Area.total_bike_slots a).

(** The batch of slot documents generated for an area. *)
Definition slot_batch (parkingId : ObjectId) (req : AreaReq.t) : list (ObjectId -> Slot.t) :=
  array_from (AreaReq.total_car_slots req) (new_slot parkingId "car") ++
  array_from (AreaReq.total_bike_slots req) (new_slot parkingId "bike").

(** ** The store after an operation that went through *)

(** The [$inc] document a request's vehicle type selects. *)
Definition reserve_inc (vehicle_type : string) : Area.t -> Area.t :=
  if String.eqb (toLowerCase vehicle_type) "car" then inc_car (-1) 1 else inc_bike (-1) 1.

Definition release_inc (vehicle_type : string) : Area.t -> Area.t :=
  if String.eqb (toLowerCase vehicle_type) "car" then inc_car 1 (-1) else inc_bike 1 (-1).

(** The store after a reservation that went through. *)
Definition reserved (req : BookReq.t) (now : Date) (db : DB) : DB :=
  {| parking_areas :=
       updateOne (area_by_id (BookReq.parking_id req))
                 (reserve_inc (BookReq.vehicle_type req)) (parking_areas db);
     slots :=
       updateOne (slot_by_id (BookReq.slot_id req))
                 (slot_set booked (Some (next_oid db))) (slots db);
     bookings := bookings db ++ [booking_doc req now (next_oid db)];
     register_login := register_login db;
     next_oid := S (next_oid db) |}.

(** The store after a completion that went through. *)
Definition completed_db (req : CompleteReq.t) (now : Date) (db : DB) : DB :=
  {| parking_areas :=
       updateOne (area_by_id (CompleteReq.parking_id req))
                 (release_inc (CompleteReq.vehicle_type req)) (parking_areas db);
     slots :=
       updateOne (slot_by_id (CompleteReq.slot_id req))
                 (slot_set available None) (slots db);
     bookings :=
       updateOne (booking_active_on (CompleteReq.slot_id req))
                 (set_completed (CompleteReq.exit_time req) (CompleteReq.amount req) now)
                 (bookings db);
     register_login := register_login db;
     next_oid := next_oid db |}.

(** ** Sample stores and requests *)

Definition empty_db : DB :=
  {| parking_areas := []; slots := []; bookings := []; register_login := [];
     next_oid := 0%nat |}.

Definition create_mall_a : AreaReq.t :=
  {| AreaReq.name := "9123456780"; AreaReq.parking_area_name := "Mall A";
     AreaReq.location := {| lat := 10; lng := 76 |};
     AreaReq.total_car_slots := 2; AreaReq.total_bike_slots := 1 |}.

Definition create_mall_b : AreaReq.t :=
  {| AreaReq.name := "9123456781"; AreaReq.parking_area_name := "Mall B";
     AreaReq.location := {| lat := 11; lng := 77 |};
     AreaReq.total_car_slots := 1; AreaReq.total_bike_slots := 1 |}.

(** "Mall A" with two car slots and one bike slot, then "Mall B" with one
    slot of each type, both just created on an empty database. *)
Definition mall_a : Area.t :=
  {| Area._id := 0%nat; Area.name := "Mall A";
     Area.location := {| lat := 10; lng := 76 |};
     Area.total_car_slots := 2; Area.available_car_slots := 2;
     Area.booked_car_slots := 0;
     Area.total_bike_slots := 1; Area.available_bike_slots := 1;
     Area.booked_bike_slots := 0;
     Area.createdAt := 1000; Area.updatedAt := None |}.

Definition mall_b : Area.t :=
  {| Area._id := 4%nat; Area.name := "Mall B";
     Area.location := {| lat := 11; lng := 77 |};
     Area.total_car_slots := 1; Area.available_car_slots := 1;
     Area.booked_car_slots := 0;
     Area.total_bike_slots := 1; Area.available_bike_slots := 1;
     Area.booked_bike_slots := 0;
     Area.createdAt := 2000; Area.updatedAt := None |}.

Definition sample_db : DB :=
  {| parking_areas := [mall_a; mall_b];
     slots := [new_slot 0 "car" 0 1; new_slot 0 "car" 1 2; new_slot 0 "bike" 0 3;
               new_slot 4 "car" 0 5; new_slot 4 "bike" 0 6]%nat;
     bookings := [];
     register_login := [];
     next_oid := 7%nat |}.

(** A car reservation of car slot #1 of "Mall A". *)
Definition book_car_1 : BookReq.t :=
  {| BookReq.parking_id := 0%nat; BookReq.slot_id := 1%nat;
     BookReq.vehicle_type := "car"; BookReq.number_plate := "KL-07-1234";
     BookReq.entry_time := 3000; BookReq.phone := "9876543210" |}.

(** The same slot asked for by a second caller. *)
Definition book_car_1_again : BookReq.t :=
  {| BookReq.parking_id := 0%nat; BookReq.slot_id := 1%nat;
     BookReq.vehicle_type := "car"; BookReq.number_plate := "KL-01-9999";
     BookReq.entry_time := 3001; BookReq.phone := "9000000001" |}.

(** A request that names car slot #1 of "Mall A" but supplies the id of
    "Mall B" and the vehicle type "bike". *)
Definition book_mismatched : BookReq.t :=
  {| BookReq.parking_id := 4%nat; BookReq.slot_id := 1%nat;
     BookReq.vehicle_type := "bike"; BookReq.number_plate := "KL-07-1234";
     BookReq.entry_time := 3000; BookReq.phone := "9876543210" |}.

(** A request for a slot id that no slot has. *)
Definition book_missing : BookReq.t :=
  {| BookReq.parking_id := 0%nat; BookReq.slot_id := 42%nat;
     BookReq.vehicle_type := "car"; BookReq.number_plate := "KL-07-1234";
     BookReq.entry_time := 3000; BookReq.phone := "9876543210" |}.

(** [sample_db] after [book_car_1]. *)
Definition booked_db : DB := snd (ReserveSlot book_car_1 3000 sample_db).

Definition complete_car_1 : CompleteReq.t :=
  {| CompleteReq.slot_id := 1%nat; CompleteReq.parking_id := 0%nat;
     CompleteReq.vehicle_type := "car"; CompleteReq.exit_time := 4000;
     CompleteReq.amount := 50 |}.

(** The completion of the same booking by a caller that supplies "bike". *)
Definition complete_car_1_as_bike : CompleteReq.t :=
  {| CompleteReq.slot_id := 1%nat; CompleteReq.parking_id := 0%nat;
     CompleteReq.vehicle_type := "bike"; CompleteReq.exit_time := 4000;
     CompleteReq.amount := 50 |}.

(** "Mall A" resized to no slots at all, and to three car slots. *)
Definition resize_a_to_zero : AreaReq.t :=
  {| AreaReq.name := "9123456780"; AreaReq.parking_area_name := "Mall A";
     AreaReq.location := {| lat := 10; lng := 76 |};
     AreaReq.total_car_slots := 0; AreaReq.total_bike_slots := 0 |}.

Definition resize_a_to_3_1 : AreaReq.t :=
  {| AreaReq.name := "9123456780"; AreaReq.parking_area_name := "Mall A";
     AreaReq.location := {| lat := 10; lng := 76 |};
     AreaReq.total_car_slots := 3; AreaReq.total_bike_slots := 1 |}.

(** ** The claims of the specification that the code does not meet, as stated *)

(** CompleteBooking adjusts the counters of the vehicle type stored on the
    booking: the pair of that type moves by (+1, -1) on the booking's area. *)
Definition release_by_stored_type (req : CompleteReq.t) (now : Date) (db : DB) : Prop :=
  forall b a,
    findOne (booking_active_on (CompleteReq.slot_id req)) (bookings db) = Some b ->
    findOne (area_by_id (Booking.parking_id b)) (parking_areas db) = Some a ->
    exists a',
      findOne (area_by_id (Booking.parking_id b))
              (parking_areas (snd (CompleteBooking req now db))) = Some a' /\
      if String.eqb (Booking.vehicle_type b) "car"
      then car_counters a' = (Area.available_car_slots a + 1, Area.booked_car_slots a - 1)
      else bike_counters a' = (Area.available_bike_slots a + 1, Area.booked_bike_slots a - 1).

(** Reserving a slot and then completing it gives back an available slot
    without booking reference and the counters of the slot's area. *)
Definition round_trip_restores (r : BookReq.t) (c : CompleteReq.t) (now1 now2 : Date)
    (db : DB) : Prop :=
  let '(res1, db1) := ReserveSlot r now1 db in
  let '(res2, db2) := CompleteBooking c now2 db1 in
  BookReq.slot_id r = CompleteReq.slot_id c ->
  fst res1 = 200 -> fst res2 = 200 ->
  forall s a,
    findOne (slot_by_id (BookReq.slot_id r)) (slots db) = Some s ->
    findOne (area_by_id (Slot.parking_id s)) (parking_areas db) = Some a ->
    (exists s', findOne (slot_by_id (BookReq.slot_id r)) (slots db2) = Some s' /\
                Slot.status s' = available /\ Slot.current_booking_id s' = None) /\
    (exists a', findOne (area_by_id (Slot.parking_id s)) (parking_areas db2) = Some a' /\
                car_counters a' = car_counters a /\ bike_counters a' = bike_counters a).

(** Reservation requests served one after the other, each to completion. *)
Fixpoint run_sequence (reqs : list (BookReq.t * Date)) (db : DB)
  : list Response * DB :=
  match reqs with
  | [] => ([], db)
  | (r, t) :: rest =>
      let '(res, db1) := ReserveSlot r t db in
      let '(out, db2) := run_sequence rest db1 in
      (res :: out, db2)
  end.

(** ** The read routes and the owner accounts *)

(** A slot of a listing: the stored document spread, then [is_booked]. *)
Record SlotView := {
  slot : Slot.t;
  is_booked : bool
}.

(** The JSON bodies of the routes below. *)
Inductive Payload :=
| Slots (slotsWithStatus : list SlotView)
| Bookings (bookings : list Booking.t)
| Text (message : string)
| OwnerLogin (message : string) (phone : string) (parking_area_name : string)
| Failure (message : string) (error : string).

Definition Reply := (Z * Payload)%type.

(** A handler of these routes run alone, its [catch] included. *)
Definition serve (p : prog Reply) (db : DB) : Reply * DB :=
  match run p db with
  | (inl e, db') => ((500, Failure "Server error" e), db')
  | (inr r, db') => (r, db')
  end.

(** A JS string used as a condition: [undefined] and the empty string are
    falsy. *)
Definition truthy (s : option string) : bool :=
  match s with
  | Some EmptyString => false
  | Some _ => true
  | None => false
  end.

Definition slots_find (p : Slot.t -> bool) : StoreOp (list Slot.t) :=
  fun db => inr (filter p (slots db), db).

Definition bookings_find (p : Booking.t -> bool) : StoreOp (list Booking.t) :=
  fun db => inr (filter p (bookings db), db).

Definition owners_findOne (p : Owner.t -> bool) : StoreOp (option Owner.t) :=
  fun db => inr (findOne p (register_login db), db).

Definition owners_insertOne (doc : ObjectId -> Owner.t) : StoreOp ObjectId :=
  fun db => inr (next_oid db,
                 with_next_oid (S (next_oid db))
                   (with_owners (register_login db ++ [doc (next_oid db)]) db)).

(** [{ parking_id: parkingId, status: "active" }] *)
Definition booking_active_in (parkingId : ObjectId) (b : Booking.t) : bool :=
  Nat.eqb (Booking.parking_id b) parkingId &&
  booking_status_eqb (Booking.status b) active.

(** The [query] of a slot listing: the area, and the lower-cased vehicle
    type when the request has one. *)
Definition slot_query (parkingId : ObjectId) (vehicle_type : option string)
    (s : Slot.t) : bool :=
  slot_by_parking parkingId s &&
  match vehicle_type with
  | Some v =>
      if truthy vehicle_type
      then String.eqb (Slot.vehicle_type s) (toLowerCase v)
      else true
  | None => true
  end.

(** [GET /api/parking_areas/:id/slots]; [GET /api/owner/parking_areas/:id/slots]
    has the same body. *)
Definition get_parking_area_slots (id : ObjectId) (vehicle_type : option string)
  : prog Reply :=
  let parkingId := id in
  await slots <- slots_find (slot_query parkingId vehicle_type) ;;
  await activeBookings <- bookings_find (booking_active_in parkingId) ;;
  let bookedSlotIds := map Booking.slot_id activeBookings in
  let slotsWithStatus :=
    map (fun slot => {| slot := slot;
                        is_booked := existsb (Nat.eqb (Slot._id slot)) bookedSlotIds |})
        slots in
  Ret (200, Slots slotsWithStatus).

(** [GET /api/owner/bookings] *)
Definition get_owner_bookings (slot_id : ObjectId) : prog Reply :=
  await bookings <- bookings_find (booking_active_on slot_id) ;;
  Ret (200, Bookings bookings).

Module OwnerReq.
Record t := {
  phone : string;
  parking_area_name : string;
  password : string
}.
End OwnerReq.

Module LoginReq.
Record t := {
  phone : string;
  password : option string
}.
End LoginReq.

(** [POST /api/owner/register] *)
Definition post_owner_register (req : OwnerReq.t) (now : Date) : prog Reply :=
  await existingUser <- owners_findOne (owner_by_phone (OwnerReq.phone req)) ;;
  match existingUser with
  | Some _ => Ret (400, Text "User already exists")
  | None =>
      let user := fun id =>
        {| Owner._id := id;
           Owner.phone := OwnerReq.phone req;
           Owner.parking_area_name := OwnerReq.parking_area_name req;
           Owner.password := OwnerReq.password req;
           Owner.createdAt := now;
           Owner.updatedAt := None |} in
      await _ <- owners_insertOne user ;;
      Ret (200, Text "Registered successfully")
  end.

(** [{ phone, password }] *)
Definition owner_by_credentials (phone password : string) (o : Owner.t) : bool :=
  String.eqb (Owner.phone o) phone && String.eqb (Owner.password o) password.

(** [POST /api/owner/login] *)
Definition post_owner_login (req : LoginReq.t) : prog Reply :=
  await user <-
    (match LoginReq.password req with
     | Some password =>
         if truthy (LoginReq.password req)
         then owners_findOne (owner_by_credentials (LoginReq.phone req) password)
         else owners_findOne (owner_by_phone (LoginReq.phone req))
     | None => owners_findOne (owner_by_phone (LoginReq.phone req))
     end) ;;
  match user with
  | None => Ret (400, Text "Invalid credentials")
  | Some user =>
      Ret (200, OwnerLogin "Login successful" (Owner.phone user)
                  (Owner.parking_area_name user))
  end.

Definition ListSlots (id : ObjectId) (vehicle_type : option string) (db : DB)
  : Reply * DB :=
  serve (get_parking_area_slots id vehicle_type) db.

Definition ActiveBookingsOfSlot (slot_id : ObjectId) (db : DB) : Reply * DB :=
  serve (get_owner_bookings slot_id) db.

Definition RegisterOwner (req : OwnerReq.t) (now : Date) (db : DB) : Reply * DB :=
  serve (post_owner_register req now) db.

Definition LoginOwner (req : LoginReq.t) (db : DB) : Reply * DB :=
  serve (post_owner_login req) db.

(** ** Sequential histories of the engine *)

(** What a store that only the engine wrote looks like: slot ids unique and
    fresh, bookings naming ids that were handed out, at most one active
    booking per slot id, and none at all on a slot that is available. *)
Definition engine_consistent (db : DB) : Prop :=
  slot_ids_wf db /\
  Forall (fun b => (Booking.slot_id b < next_oid db)%nat) (bookings db) /\
  (forall i, (List.length (filter (booking_active_on i) (bookings db)) <= 1)%nat) /\
  (forall s, In s (slots db) -> Slot.status s = available ->
             filter (booking_active_on (Slot._id s)) (bookings db) = []).

Inductive Command :=
| Reserve (req : BookReq.t) (now : Date)
| Complete (req : CompleteReq.t) (now : Date)
| Upsert (req : AreaReq.t) (now : Date).

Definition perform (c : Command) (db : DB) : DB :=
  match c with
  | Reserve req now => snd (ReserveSlot req now db)
  | Complete req now => snd (CompleteBooking req now db)
  | Upsert req now => snd (CreateOrResizeArea req now db)
  end.

(** The commands served one after the other, each to completion. *)
Definition perform_all (cs : list Command) (db : DB) : DB :=
  fold_left (fun d c => perform c d) cs db.

(** Area names and ids are unique, and the ids were handed out. *)
Definition areas_wf (db : DB) : Prop :=
  NoDup (map Area.name (parking_areas db)) /\
  NoDup (map Area._id (parking_areas db)) /\
  Forall (fun a => (Area._id a < next_oid db)%nat) (parking_areas db).

(** ** Two completions of one slot in flight *)

(** A completion handler after [k] of its awaits, run from the store [db0]
    with nothing else in between. *)
Definition stage (k : nat) (req : CompleteReq.t) (now : Date) (db0 : DB)
  : prog Response * DB :=
  Nat.iter k (fun s => step (fst s) (snd s)) (post_owner_bookings_complete req now, db0).

Definition turned_away : prog Response := Ret (400, Message "No active booking found").

(** The states that two completions of one slot can be in together: none has
    started, or one has gone [k] awaits ahead on its own while the other has
    not started or has been turned away. *)
Definition completions_in_flight (c1 c2 : CompleteReq.t) (now1 now2 : Date) (db0 : DB)
    (pool : list (prog Response)) (db : DB) : Prop :=
  (pool = [post_owner_bookings_complete c1 now1; post_owner_bookings_complete c2 now2] /\
   db = db0) \/
  (exists k other,
     (k = 1 \/ k = 2 \/ k = 3)%nat /\
     (other = post_owner_bookings_complete c2 now2 \/ other = turned_away) /\
     pool = [fst (stage k c1 now1 db0); other] /\ db = snd (stage k c1 now1 db0)) \/
  (exists k other,
     (k = 1 \/ k = 2 \/ k = 3)%nat /\
     (other = post_owner_bookings_complete c1 now1 \/ other = turned_away) /\
     pool = [other; fst (stage k c2 now2 db0)] /\ db = snd (stage k c2 now2 db0)).

(** An owner of "Mall A", registered on the sample store. *)
Definition owner_of_mall_a : OwnerReq.t :=
  {| OwnerReq.phone := "9123456780"; OwnerReq.parking_area_name := "Mall A";
     OwnerReq.password := "s3cret" |}.

Definition owners_db : DB := snd (RegisterOwner owner_of_mall_a 500 sample_db).

Definition login_without_password : LoginReq.t :=
  {| LoginReq.phone := "9123456780"; LoginReq.password := None |}.

Definition login_with_password : LoginReq.t :=
  {| LoginReq.phone := "9123456780"; LoginReq.password := Some "s3cret" |}.

Definition login_with_wrong_password : LoginReq.t :=
  {| LoginReq.phone := "9123456780"; LoginReq.password := Some "guess" |}.

(** "Mall A" renamed by its owner to "Mall A2". *)
Definition rename_to_mall_a2 : AreaReq.t :=
  {| AreaReq.name := "9123456780"; AreaReq.parking_area_name := "Mall A2";
     AreaReq.location := {| lat := 10; lng := 76 |};
     AreaReq.total_car_slots := 2; AreaReq.total_bike_slots := 1 |}.

(** ** Connecting to the database at startup *)

(** What [connectDB] prints and waits for. The retry message is the template
    "Retrying connection (k/5)..." with its number. *)
Inductive Event :=
| ConsoleLog (text : string)
| ConsoleError (text : string)
| LogRetrying (k : Z)
| Sleep (ms : Z).

Inductive Startup :=
| ReturnsDb (name : string)
| ProcessExit (code : Z)
| ReturnsUndefined.

(** The [while (retries)] loop of [connectDB]. [connect n] tells whether the
    call of [client.connect()] number [n] (from 0) succeeds. *)
Fixpoint connect_loop (connect : nat -> bool) (attempt : nat) (retries : nat)
  : list Event * Startup :=
  match retries with
  | O => ([], ReturnsUndefined)
  | S retries' =>
      if connect attempt
      then ([ConsoleLog "Connected to MongoDB"], ReturnsDb "ParkingSystem")
      else
        match retries' with
        | O => ([ConsoleError "MongoDB connection failed:";
                 ConsoleError "Max retries reached. Exiting..."],
                ProcessExit 1)
        | S _ =>
            let '(events, result) := connect_loop connect (S attempt) retries' in
            (ConsoleError "MongoDB connection failed:"
               :: LogRetrying (5 - Z.of_nat retries')
               :: Sleep 2000 :: events,
             result)
        end
  end.

Definition connectDB (connect : nat -> bool) : list Event * Startup :=
  connect_loop connect 0 5.

(** The calls of [client.connect()] made, and the time slept, in a run. *)
Definition attempts_made (run : list Event * Startup) : nat :=
  List.length (filter (fun e => match e with
                                | ConsoleLog "Connected to MongoDB" => true
                                | ConsoleError "MongoDB connection failed:" => true
                                | _ => false
                                end) (fst run)).

Definition time_slept (run : list Event * Startup) : Z :=
  fold_right (fun e t => match e with Sleep ms => ms + t | _ => t end) 0 (fst run).

(** A server that comes up at the third attempt, and one that never does. *)
Definition up_at_third (n : nat) : bool := Nat.eqb n 2.
Definition never_up (n : nat) : bool := false.

(** ** User accounts *)

Module User.
Record t := {
  _id : ObjectId;
  phone : string;
  name : string;
  car_number_plate : string;
  bike_number_plate : string;
  createdAt : Date;
  updatedAt : option Date
}.
End User.

(** The [users] collection, which no route of the engine reads, with its
    supply of ObjectIds. A handler below is the sequence of its awaited
    operations on this collection. *)
Record UserStore := {
  users : list User.t;
  next_uid : ObjectId
}.

Module RegisterReq.
Record t := {
  phone : string;
  name : option string;
  car_number_plate : option string;
  bike_number_plate : option string
}.
End RegisterReq.

Module ProfileReq.
Record t := {
  phone : string;
  name : string;
  car_number_plate : string;
  bike_number_plate : string
}.
End ProfileReq.

Inductive UserBody :=
| UserText (message : string)
| WithUser (message : string) (user : User.t)
| Profile (user : User.t)
| Updated (message : string) (user : option User.t)
| AllUsers (users : list User.t).

Definition UserReply := (Z * UserBody)%type.

Definition user_by_phone (p : string) (u : User.t) : bool := String.eqb (User.phone u) p.

(** [value || fallback] on a string or [undefined]. *)
Definition or_default (value : option string) (fallback : string) : string :=
  match value with
  | Some v => if truthy value then v else fallback
  | None => fallback
  end.

(** [POST /api/users/register] *)
Definition post_users_register (req : RegisterReq.t) (now : Date) (st : UserStore)
  : UserReply * UserStore :=
  match findOne (user_by_phone (RegisterReq.phone req)) (users st) with
  | Some existingUser => ((200, WithUser "User already exists" existingUser), st)
  | None =>
      let newUser :=
        {| User._id := next_uid st;
           User.phone := RegisterReq.phone req;
           User.name := or_default (RegisterReq.name req) "User";
           User.car_number_plate := or_default (RegisterReq.car_number_plate req) "";
           User.bike_number_plate := or_default (RegisterReq.bike_number_plate req) "";
           User.createdAt := now;
           User.updatedAt := None |} in
      ((201, WithUser "User registered successfully" newUser),
       {| users := users st ++ [newUser]; next_uid := S (next_uid st) |})
  end.

(** [POST /api/users/login] *)
Definition post_users_login (phone : string) (st : UserStore) : UserReply * UserStore :=
  match findOne (user_by_phone phone) (users st) with
  | None => ((404, UserText "User not found. Please register."), st)
  | Some user => ((200, WithUser "Login successful" user), st)
  end.

(** [GET /api/users/profile/:phone] *)
Definition get_users_profile (phone : string) (st : UserStore) : UserReply * UserStore :=
  match findOne (user_by_phone phone) (users st) with
  | None => ((404, UserText "User not found"), st)
  | Some user => ((200, Profile user), st)
  end.

(** [{ $set: { name, car_number_plate, bike_number_plate, updatedAt } }] *)
Definition set_profile (req : ProfileReq.t) (now : Date) (u : User.t) : User.t :=
  {| User._id := User._id u;
     User.phone := User.phone u;
     User.name := ProfileReq.name req;
     User.car_number_plate := ProfileReq.car_number_plate req;
     User.bike_number_plate := ProfileReq.bike_number_plate req;
     User.createdAt := User.createdAt u;
     User.updatedAt := Some now |}.

(** [PUT /api/users/profile] *)
Definition put_users_profile (req : ProfileReq.t) (now : Date) (st : UserStore)
  : UserReply * UserStore :=
  let matched := matchedCount (user_by_phone (ProfileReq.phone req)) (users st) in
  let st1 := {| users := updateOne (user_by_phone (ProfileReq.phone req))
                           (set_profile req now) (users st);
                next_uid := next_uid st |} in
  if matched =? 0
  then ((404, UserText "User not found"), st1)
  else
    let updatedUser := findOne (user_by_phone (ProfileReq.phone req)) (users st1) in
    ((200, Updated "Profile updated successfully" updatedUser), st1).

(** [GET /api/users/all] *)
Definition get_users_all (st : UserStore) : UserReply * UserStore :=
  ((200, AllUsers (users st)), st).

(** A first registration with only a phone, and a profile update. *)
Definition no_users : UserStore := {| users := []; next_uid := 0%nat |}.

Definition register_bare : RegisterReq.t :=
  {| RegisterReq.phone := "9876543210"; RegisterReq.name := None;
     RegisterReq.car_number_plate := Some ""; RegisterReq.bike_number_plate := Some "KL-07-B-1" |}.

Definition one_user : UserStore := snd (post_users_register register_bare 100 no_users).

Definition update_profile : ProfileReq.t :=
  {| ProfileReq.phone := "9876543210"; ProfileReq.name := "Asha";
     ProfileReq.car_number_plate := "KL-07-1234"; ProfileReq.bike_number_plate := "" |}.

(** ** Lemmas on the collection primitives *)

Section CollectionFacts.
Context {A : Type}.
Implicit Types (p q : A -> bool) (f g : A -> A) (l : list A).

Lemma updateOne_no_match p f l :
  existsb p l = false -> updateOne p f l = l.
Proof.
  induction l as [|x r IH]; simpl; intros H; [reflexivity|].
  apply orb_false_iff in H as [Hx Hr].
  rewrite Hx, IH by assumption. reflexivity.
Qed.

Lemma find_updateOne_same p f l :
  (forall x, p (f x) = p x) ->
  find p (updateOne p f l) = option_map f (find p l).
Proof.
  intros Hp. induction l as [|x r IH]; simpl; [reflexivity|].
  destruct (p x) eqn:E; simpl.
  - rewrite Hp, E. reflexivity.
  - rewrite E. exact IH.
Qed.

Lemma find_updateOne_other p q f l :
  (forall x, q (f x) = q x) ->
  (forall x, p x = true -> q x = false) ->
  find q (updateOne p f l) = find q l.
Proof.
  intros Hq Hpq. induction l as [|x r IH]; simpl; [reflexivity|].
  destruct (p x) eqn:E; simpl.
  - rewrite Hq, (Hpq x E). reflexivity.
  - destruct (q x); [reflexivity | exact IH].
Qed.

Lemma updateOne_Forall (P : A -> Prop) p f l :
  (forall x, P x -> P (f x)) -> Forall P l -> Forall P (updateOne p f l).
Proof.
  intros Hf. induction 1 as [|x r Hx Hr IH]; simpl; [constructor|].
  destruct (p x); constructor; auto.
Qed.

Lemma updateOne_twice p f g l :
  (forall x, p (f x) = p x) ->
  updateOne p g (updateOne p f l) = updateOne p (fun x => g (f x)) l.
Proof.
  intros Hp. induction l as [|x r IH]; simpl; [reflexivity|].
  destruct (p x) eqn:E; simpl.
  - rewrite Hp, E. reflexivity.
  - rewrite E, IH. reflexivity.
Qed.

Lemma updateOne_id p f l :
  (forall x, f x = x) -> updateOne p f l = l.
Proof.
  intros Hf. induction l as [|x r IH]; simpl; [reflexivity|].
  destruct (p x); [rewrite Hf | rewrite IH]; reflexivity.
Qed.

Lemma updateOne_map {B : Type} (h : A -> B) p f l :
  (forall x, h (f x) = h x) -> map h (updateOne p f l) = map h l.
Proof.
  intros Hh. induction l as [|x r IH]; simpl; [reflexivity|].
  destruct (p x); simpl; [rewrite Hh | rewrite IH]; reflexivity.
Qed.

End CollectionFacts.

Lemma with_bookings_same db : with_bookings (bookings db) db = db.
Proof. destruct db; reflexivity. Qed.

Lemma slot_status_eqb_spec a b : slot_status_eqb a b = true <-> a = b.
Proof. destruct a, b; simpl; split; (reflexivity || discriminate). Qed.

Lemma booking_status_eqb_spec a b : booking_status_eqb a b = true <-> a = b.
Proof. destruct a, b; simpl; split; (reflexivity || discriminate). Qed.

Lemma inc_car_undo d e a : inc_car d e (inc_car (- d) (- e) a) = a.
Proof. destruct a; unfold inc_car; simpl; f_equal; lia. Qed.

Lemma inc_bike_undo d e a : inc_bike d e (inc_bike (- d) (- e) a) = a.
Proof. destruct a; unfold inc_bike; simpl; f_equal; lia. Qed.



(** ** ReserveSlot *)

Lemma ReserveSlot_rejects req now db :
  (forall s, findOne (slot_by_id (BookReq.slot_id req)) (slots db) = Some s ->
             Slot.status s <> available) ->
  ReserveSlot req now db = ((400, Message "Slot not available"), db).
Proof.
  intros H. unfold ReserveSlot, post_bookings. simpl.
  destruct (findOne _ (slots db)) as [s|] eqn:E; [|reflexivity].
  specialize (H s eq_refl).
  destruct (slot_status_eqb (Slot.status s) available) eqn:Es.
  - apply slot_status_eqb_spec in Es. contradiction.
  - reflexivity.
Qed.

Lemma ReserveSlot_accepts req now db s :
  findOne (slot_by_id (BookReq.slot_id req)) (slots db) = Some s ->
  Slot.status s = available ->
  ReserveSlot req now db =
    ((200, SlotBooked "Slot booked" (next_oid db) (Slot.slot_number s)),
     reserved req now db).
Proof.
  intros E Hs. unfold ReserveSlot, post_bookings. simpl.
  rewrite E, Hs. simpl.
  unfold reserved, reserve_inc.
  destruct (String.eqb _ "car"); reflexivity.
Qed.

(** ** CompleteBooking *)

Lemma CompleteBooking_rejects req now db :
  existsb (booking_active_on (CompleteReq.slot_id req)) (bookings db) = false ->
  CompleteBooking req now db = ((400, Message "No active booking found"), db).
Proof.
  intros H. unfold CompleteBooking, post_owner_bookings_complete. simpl.
  unfold matchedCount. rewrite H. simpl.
  rewrite updateOne_no_match by assumption.
  rewrite with_bookings_same. reflexivity.
Qed.

Lemma CompleteBooking_accepts req now db :
  existsb (booking_active_on (CompleteReq.slot_id req)) (bookings db) = true ->
  CompleteBooking req now db =
    ((200, Message "Booking completed and slot freed"), completed_db req now db).
Proof.
  intros H. unfold CompleteBooking, post_owner_bookings_complete. simpl.
  unfold matchedCount. rewrite H. simpl.
  unfold completed_db, release_inc.
  destruct (String.eqb _ "car"); reflexivity.
Qed.

Lemma active_booking_exists i l :
  existsb (booking_active_on i) l = true <->
  exists b, In b l /\ Booking.slot_id b = i /\ Booking.status b = active.
Proof.
  rewrite existsb_exists. unfold booking_active_on.
  split; intros (b & Hin & H); exists b; split; auto.
  - apply andb_true_iff in H as [H1 H2].
    apply Nat.eqb_eq in H1. apply booking_status_eqb_spec in H2. auto.
  - destruct H as [H1 H2]. apply andb_true_iff. split.
    + apply Nat.eqb_eq; assumption.
    + apply booking_status_eqb_spec; assumption.
Qed.

Lemma no_active_booking i l :
  existsb (booking_active_on i) l = false <->
  (forall b, In b l -> Booking.slot_id b = i -> Booking.status b <> active).
Proof.
  split.
  - intros H b Hin Hid Hst.
    assert (existsb (booking_active_on i) l = true) as E
      by (apply active_booking_exists; eauto).
    congruence.
  - intros H. destruct (existsb _ l) eqn:E; [|reflexivity].
    apply active_booking_exists in E as (b & Hin & Hid & Hst).
    destruct (H b Hin Hid Hst).
Qed.

(** ** Lookups of areas and slots after an update by [_id] *)

Lemma reserve_inc_id vt a : Area._id (reserve_inc vt a) = Area._id a.
Proof. unfold reserve_inc. destruct (String.eqb _ _); reflexivity. Qed.

Lemma release_inc_id vt a : Area._id (release_inc vt a) = Area._id a.
Proof. unfold release_inc. destruct (String.eqb _ _); reflexivity. Qed.

Lemma find_area_after_update i j f l :
  (forall a, Area._id (f a) = Area._id a) ->
  findOne (area_by_id i) (updateOne (area_by_id j) f l) =
    if Nat.eqb i j then option_map f (findOne (area_by_id i) l)
    else findOne (area_by_id i) l.
Proof.
  intros Hf. unfold findOne.
  destruct (Nat.eqb i j) eqn:E.
  - apply Nat.eqb_eq in E. subst j.
    apply find_updateOne_same. intros a. unfold area_by_id. rewrite Hf. reflexivity.
  - apply find_updateOne_other.
    + intros a. unfold area_by_id. rewrite Hf. reflexivity.
    + intros a Ha. unfold area_by_id in *. apply Nat.eqb_eq in Ha.
      rewrite Ha. rewrite Nat.eqb_sym. exact E.
Qed.

Lemma find_slot_after_update i j f l :
  (forall s, Slot._id (f s) = Slot._id s) ->
  findOne (slot_by_id i) (updateOne (slot_by_id j) f l) =
    if Nat.eqb i j then option_map f (findOne (slot_by_id i) l)
    else findOne (slot_by_id i) l.
Proof.
  intros Hf. unfold findOne.
  destruct (Nat.eqb i j) eqn:E.
  - apply Nat.eqb_eq in E. subst j.
    apply find_updateOne_same. intros a. unfold slot_by_id. rewrite Hf. reflexivity.
  - apply find_updateOne_other.
    + intros a. unfold slot_by_id. rewrite Hf. reflexivity.
    + intros a Ha. unfold slot_by_id in *. apply Nat.eqb_eq in Ha.
      rewrite Ha. rewrite Nat.eqb_sym. exact E.
Qed.

(** ** Rejected requests leave the store alone *)

(** Claim C6. A ReserveSlot request whose slot does not exist, or exists with
    a status other than available, is answered 400 "Slot not available" and
    the store afterwards is the store before: no booking is created, no slot
    and no area counter is changed. *)
Theorem reserve_unavailable_changes_nothing (req : BookReq.t) (now : Date) (db : DB) :
  findOne (slot_by_id (BookReq.slot_id req)) (slots db) = None \/
  (exists s, findOne (slot_by_id (BookReq.slot_id req)) (slots db) = Some s /\
             Slot.status s <> available) ->
  ReserveSlot req now db = ((400, Message "Slot not available"), db).
Proof.
  intros H. apply ReserveSlot_rejects. intros s Hs.
  destruct H as [H | (s' & H & Hst)]; congruence.
Qed.

Lemma reserve_unavailable_witness :
  ReserveSlot book_missing 3000 sample_db
    = ((400, Message "Slot not available"), sample_db) /\
  ReserveSlot book_car_1_again 3001 booked_db
    = ((400, Message "Slot not available"), booked_db).
Proof.
  split.
  - apply reserve_unavailable_changes_nothing. left. reflexivity.
  - apply reserve_unavailable_changes_nothing. right.
    exists (slot_set booked (Some 7%nat) (new_slot 0%nat "car" 0%nat 1%nat)).
    split; [reflexivity | discriminate].
Defined.

(** Claim C7. A CompleteBooking request for a slot id that no active booking
    references is answered 400 "No active booking found" and the store
    afterwards is the store before: no booking, slot or area counter is
    changed. *)
Theorem complete_without_active_booking_changes_nothing
    (req : CompleteReq.t) (now : Date) (db : DB) :
  (forall b, In b (bookings db) ->
             Booking.slot_id b = CompleteReq.slot_id req ->
             Booking.status b <> active) ->
  CompleteBooking req now db = ((400, Message "No active booking found"), db).
Proof.
  intros H. apply CompleteBooking_rejects. apply no_active_booking. exact H.
Qed.

Lemma complete_without_active_booking_witness :
  CompleteBooking complete_car_1 4000 sample_db
    = ((400, Message "No active booking found"), sample_db).
Proof.
  apply complete_without_active_booking_changes_nothing.
  simpl. intros b [].
Defined.

(** ** What a reservation does to the counters *)

(** Claim C10. A ReserveSlot request that names an available slot succeeds
    whatever area id and vehicle type it supplies: nothing relates them to
    the slot's stored area and type. The counters moved by (-1, +1) are those
    of the area with the supplied id, the car pair when the supplied type
    lower-cases to "car" and the bike pair otherwise; the other pair of that
    area and every other area, the slot's own included, are as before. *)
Theorem reserve_trusts_supplied_area_and_type
    (req : BookReq.t) (now : Date) (db : DB) (s : Slot.t) :
  findOne (slot_by_id (BookReq.slot_id req)) (slots db) = Some s ->
  Slot.status s = available ->
  exists db',
    ReserveSlot req now db =
      ((200, SlotBooked "Slot booked" (next_oid db) (Slot.slot_number s)), db') /\
    (forall a,
       findOne (area_by_id (BookReq.parking_id req)) (parking_areas db) = Some a ->
       exists a',
         findOne (area_by_id (BookReq.parking_id req)) (parking_areas db') = Some a' /\
         if String.eqb (toLowerCase (BookReq.vehicle_type req)) "car"
         then car_counters a' =
                (Area.available_car_slots a - 1, Area.booked_car_slots a + 1) /\
              bike_counters a' = bike_counters a
         else bike_counters a' =
                (Area.available_bike_slots a - 1, Area.booked_bike_slots a + 1) /\
              car_counters a' = car_counters a) /\
    (forall i, i <> BookReq.parking_id req ->
       findOne (area_by_id i) (parking_areas db') =
       findOne (area_by_id i) (parking_areas db)).
Proof.
  intros Hs Hav. exists (reserved req now db).
  split; [apply ReserveSlot_accepts; assumption|].
  unfold reserved; simpl. split.
  - intros a Ha.
    rewrite find_area_after_update by apply reserve_inc_id.
    rewrite Nat.eqb_refl, Ha. simpl.
    exists (reserve_inc (BookReq.vehicle_type req) a). split; [reflexivity|].
    unfold reserve_inc.
    destruct (String.eqb _ "car"); unfold car_counters, bike_counters; simpl; auto.
  - intros i Hi.
    rewrite find_area_after_update by apply reserve_inc_id.
    apply Nat.eqb_neq in Hi. rewrite Hi. reflexivity.
Qed.

Lemma reserve_trusts_supplied_witness :
  exists db',
    ReserveSlot book_mismatched 3000 sample_db =
      ((200, SlotBooked "Slot booked" 7%nat 1), db') /\
    (forall a,
       findOne (area_by_id 4%nat) (parking_areas sample_db) = Some a ->
       exists a',
         findOne (area_by_id 4%nat) (parking_areas db') = Some a' /\
         bike_counters a' =
           (Area.available_bike_slots a - 1, Area.booked_bike_slots a + 1) /\
         car_counters a' = car_counters a) /\
    (forall i, i <> 4%nat ->
       findOne (area_by_id i) (parking_areas db') =
       findOne (area_by_id i) (parking_areas sample_db)).
Proof.
  exact (reserve_trusts_supplied_area_and_type book_mismatched 3000 sample_db
           (new_slot 0%nat "car" 0%nat 1%nat) eq_refl eq_refl).
Defined.

(** ** What a completion does to the counters *)

(** Claim C3 as stated fails: the booking on car slot #1 of "Mall A" stores
    the type "car"; completed by a request that supplies "bike", the car
    counters of the area stay at (1, 1) and the bike counters move. *)
Lemma completing_as_bike_leaves_car_counters :
  ~ release_by_stored_type complete_car_1_as_bike 4000 booked_db.
Proof.
  intros H.
  destruct (H (booking_doc book_car_1 3000 7%nat) (inc_car (-1) 1 mall_a)
              eq_refl eq_refl) as (a' & Hfind & Hcount).
  vm_compute in Hfind. injection Hfind as <-.
  vm_compute in Hcount. discriminate Hcount.
Qed.

(** Claim C3, amended. A CompleteBooking call on a slot with an active
    booking succeeds, and the counters it moves by (+1, -1) are selected by
    the request alone: on the area whose id the request supplies, the car
    pair when the supplied vehicle type lower-cases to "car" and the bike
    pair otherwise. The vehicle type stored on the booking or the slot is
    not read; the other pair and every other area are as before. *)
Theorem complete_adjusts_supplied_type (req : CompleteReq.t) (now : Date) (db : DB) :
  (exists b, In b (bookings db) /\
             Booking.slot_id b = CompleteReq.slot_id req /\
             Booking.status b = active) ->
  exists db',
    CompleteBooking req now db =
      ((200, Message "Booking completed and slot freed"), db') /\
    (forall a,
       findOne (area_by_id (CompleteReq.parking_id req)) (parking_areas db) = Some a ->
       exists a',
         findOne (area_by_id (CompleteReq.parking_id req)) (parking_areas db') = Some a' /\
         if String.eqb (toLowerCase (CompleteReq.vehicle_type req)) "car"
         then car_counters a' =
                (Area.available_car_slots a + 1, Area.booked_car_slots a - 1) /\
              bike_counters a' = bike_counters a
         else bike_counters a' =
                (Area.available_bike_slots a + 1, Area.booked_bike_slots a - 1) /\
              car_counters a' = car_counters a) /\
    (forall i, i <> CompleteReq.parking_id req ->
       findOne (area_by_id i) (parking_areas db') =
       findOne (area_by_id i) (parking_areas db)).
Proof.
  intros H. apply active_booking_exists in H.
  exists (completed_db req now db).
  split; [apply CompleteBooking_accepts; assumption|].
  unfold completed_db; simpl. split.
  - intros a Ha.
    rewrite find_area_after_update by apply release_inc_id.
    rewrite Nat.eqb_refl, Ha. simpl.
    exists (release_inc (CompleteReq.vehicle_type req) a). split; [reflexivity|].
    unfold release_inc.
    destruct (String.eqb _ "car"); unfold car_counters, bike_counters; simpl; auto.
  - intros i Hi.
    rewrite find_area_after_update by apply release_inc_id.
    apply Nat.eqb_neq in Hi. rewrite Hi. reflexivity.
Qed.

Lemma complete_adjusts_supplied_type_witness :
  exists db',
    CompleteBooking complete_car_1_as_bike 4000 booked_db =
      ((200, Message "Booking completed and slot freed"), db') /\
    (forall a,
       findOne (area_by_id 0%nat) (parking_areas booked_db) = Some a ->
       exists a',
         findOne (area_by_id 0%nat) (parking_areas db') = Some a' /\
         bike_counters a' =
           (Area.available_bike_slots a + 1, Area.booked_bike_slots a - 1) /\
         car_counters a' = car_counters a) /\
    (forall i, i <> 0%nat ->
       findOne (area_by_id i) (parking_areas db') =
       findOne (area_by_id i) (parking_areas booked_db)).
Proof.
  apply (complete_adjusts_supplied_type complete_car_1_as_bike 4000 booked_db).
  exists (booking_doc book_car_1 3000 7%nat).
  split; [left; reflexivity | split; reflexivity].
Defined.

(** ** Reserve, then complete *)

(** Claim C4 as stated fails: car slot #1 of "Mall A" reserved as "car" and
    completed as "bike" is available again, but the area is left with car
    counters (1, 1) and bike counters (2, -1) instead of (2, 0) and (1, 0). *)
Lemma reserve_then_complete_as_bike_drifts :
  ~ round_trip_restores book_car_1 complete_car_1_as_bike 3000 4000 sample_db.
Proof.
  intros H. unfold round_trip_restores in H.
  destruct (ReserveSlot book_car_1 3000 sample_db) as [res1 db1] eqn:E1.
  destruct (CompleteBooking complete_car_1_as_bike 4000 db1) as [res2 db2] eqn:E2.
  vm_compute in E1. injection E1 as <- <-.
  vm_compute in E2. injection E2 as <- <-.
  destruct (H eq_refl eq_refl eq_refl (new_slot 0%nat "car" 0%nat 1%nat) mall_a
              eq_refl eq_refl) as [_ (a' & Hfind & Hcar & _)].
  vm_compute in Hfind. injection Hfind as <-.
  vm_compute in Hcar. discriminate Hcar.
Qed.

Lemma reserved_has_active_booking req now db :
  existsb (booking_active_on (BookReq.slot_id req)) (bookings (reserved req now db)) = true.
Proof.
  unfold reserved; simpl. rewrite existsb_app. apply orb_true_iff. right.
  simpl. unfold booking_active_on. simpl. rewrite Nat.eqb_refl. reflexivity.
Qed.

Lemma release_reserve_inc vt vt' a :
  String.eqb (toLowerCase vt) "car" = String.eqb (toLowerCase vt') "car" ->
  release_inc vt' (reserve_inc vt a) = a.
Proof.
  unfold release_inc, reserve_inc. intros <-.
  destruct (String.eqb _ "car").
  - apply (inc_car_undo 1 (-1)).
  - apply (inc_bike_undo 1 (-1)).
Qed.

Lemma ReserveSlot_success_inv req now db :
  fst (fst (ReserveSlot req now db)) = 200 ->
  exists s, findOne (slot_by_id (BookReq.slot_id req)) (slots db) = Some s /\
            Slot.status s = available.
Proof.
  intros H.
  destruct (findOne (slot_by_id (BookReq.slot_id req)) (slots db)) as [s|] eqn:E.
  - destruct (Slot.status s) eqn:Es; [eauto|].
    rewrite ReserveSlot_rejects in H; [discriminate|].
    intros s' Hs'. rewrite E in Hs'. injection Hs' as <-. congruence.
  - rewrite ReserveSlot_rejects in H; [discriminate|].
    intros s' Hs'. rewrite E in Hs'. discriminate.
Qed.

(** Claim C4, amended. A successful ReserveSlot followed by CompleteBooking
    on the same slot: the completion succeeds and the slot is available again
    with no booking reference. When the completion supplies the area id of
    the reservation and a vehicle type that selects the same counter pair
    (both lower-case to "car", or neither does), every area document, and so
    the four counters of the slot's area, is as before the reservation. *)
Theorem reserve_then_complete_round_trip
    (r : BookReq.t) (c : CompleteReq.t) (now1 now2 : Date) (db : DB) :
  BookReq.slot_id r = CompleteReq.slot_id c ->
  fst (fst (ReserveSlot r now1 db)) = 200 ->
  let db1 := snd (ReserveSlot r now1 db) in
  let db2 := snd (CompleteBooking c now2 db1) in
  fst (CompleteBooking c now2 db1) = (200, Message "Booking completed and slot freed") /\
  (exists s', findOne (slot_by_id (BookReq.slot_id r)) (slots db2) = Some s' /\
              Slot.status s' = available /\ Slot.current_booking_id s' = None) /\
  (CompleteReq.parking_id c = BookReq.parking_id r ->
   String.eqb (toLowerCase (BookReq.vehicle_type r)) "car" =
   String.eqb (toLowerCase (CompleteReq.vehicle_type c)) "car" ->
   parking_areas db2 = parking_areas db).
Proof.
  intros Hid Hok.
  destruct (ReserveSlot_success_inv _ _ _ Hok) as (s & Hs & Hav).
  rewrite (ReserveSlot_accepts r now1 db s Hs Hav). simpl.
  pose proof (reserved_has_active_booking r now1 db) as Hact.
  rewrite Hid in Hact.
  rewrite (CompleteBooking_accepts c now2 _ Hact). simpl.
  split; [reflexivity|]. split.
  - rewrite <- Hid.
    rewrite !find_slot_after_update by reflexivity.
    rewrite Nat.eqb_refl, Hs. simpl. eauto.
  - intros Hpid Hsel. rewrite Hpid.
    rewrite updateOne_twice
      by (intros a; unfold area_by_id; rewrite reserve_inc_id; reflexivity).
    apply updateOne_id. intros a. apply release_reserve_inc. exact Hsel.
Qed.

Lemma reserve_then_complete_witness :
  let db1 := snd (ReserveSlot book_car_1 3000 sample_db) in
  let db2 := snd (CompleteBooking complete_car_1 4000 db1) in
  fst (CompleteBooking complete_car_1 4000 db1)
    = (200, Message "Booking completed and slot freed") /\
  (exists s', findOne (slot_by_id 1%nat) (slots db2) = Some s' /\
              Slot.status s' = available /\ Slot.current_booking_id s' = None) /\
  parking_areas db2 = parking_areas sample_db.
Proof.
  destruct (reserve_then_complete_round_trip book_car_1 complete_car_1 3000 4000
              sample_db eq_refl eq_refl) as (H1 & H2 & H3).
  split; [exact H1 | split; [exact H2 | exact (H3 eq_refl eq_refl)]].
Defined.

(** ** The bookings history *)

Lemma exec_bind {A : Type} (p : prog A) (k : A -> prog Response) (db : DB) :
  exec (bind p k) db =
    match run p db with
    | (inl e, db') => (server_error e, db')
    | (inr a, db') => exec (k a) db'
    end.
Proof.
  revert db. induction p as [a | X op k' IH]; intros db; simpl; [reflexivity|].
  destruct (op db) as [e | [x db']]; [reflexivity | apply IH].
Qed.

Lemma run_bind {A B : Type} (p : prog A) (k : A -> prog B) (db : DB) :
  run (bind p k) db =
    match run p db with
    | (inl e, db') => (inl e, db')
    | (inr a, db') => run (k a) db'
    end.
Proof.
  revert db. induction p as [a | X op k' IH]; intros db; simpl; [reflexivity|].
  destruct (op db) as [e | [x db']]; [reflexivity | apply IH].
Qed.

Lemma run_populate_all (l : list Booking.t) (db : DB) :
  run (populate_all l) db = (inr (map (display_of db) l), db).
Proof.
  induction l as [|b r IH]; simpl; [reflexivity|].
  rewrite run_bind, IH. reflexivity.
Qed.

Lemma ListUserBookings_eq (phone : string) (db : DB) :
  ListUserBookings phone db =
    ((200, BookingList
             (map (display_of db)
                  (sort_entry_time_desc (filter (booking_by_phone phone) (bookings db))))),
     db).
Proof.
  unfold ListUserBookings, get_users_bookings. simpl.
  rewrite exec_bind, run_populate_all. reflexivity.
Qed.

Lemma insert_desc_perm b l : Permutation (insert_desc b l) (b :: l).
Proof.
  induction l as [|x r IH]; simpl; [reflexivity|].
  destruct (Booking.entry_time x <=? Booking.entry_time b); [reflexivity|].
  rewrite IH. apply perm_swap.
Qed.

Lemma sort_entry_time_desc_perm l : Permutation (sort_entry_time_desc l) l.
Proof.
  induction l as [|b r IH]; simpl; [reflexivity|].
  rewrite insert_desc_perm. constructor. exact IH.
Qed.

Lemma insert_desc_sorted b l :
  StronglySorted newer_or_same l -> StronglySorted newer_or_same (insert_desc b l).
Proof.
  induction 1 as [|x r Hr IH Hx]; simpl.
  - repeat constructor.
  - destruct (Booking.entry_time x <=? Booking.entry_time b) eqn:E.
    + apply Z.leb_le in E. constructor; [constructor; assumption|].
      constructor; [exact E|].
      eapply Forall_impl; [|exact Hx]. unfold newer_or_same. intros y Hy. lia.
    + apply Z.leb_gt in E. constructor; [exact IH|].
      eapply Permutation_Forall; [symmetry; apply insert_desc_perm|].
      constructor; [unfold newer_or_same; lia | exact Hx].
Qed.

Lemma sort_entry_time_desc_sorted l :
  StronglySorted newer_or_same (sort_entry_time_desc l).
Proof.
  induction l as [|b r IH]; simpl; [constructor | apply insert_desc_sorted, IH].
Qed.

(** Claim C8. ListUserBookings answers 200 with a list and leaves the store
    alone. The stored documents of the list are exactly the bookings whose
    phone is the given one (a permutation of them), newest entry_time first;
    each entry carries its stored booking unchanged, the name of the area
    its parking_id names as display location and the number of the slot its
    slot_id names as display number (the placeholder texts when that area
    or slot is not in the store). *)
Theorem list_user_bookings_newest_first (phone : string) (db : DB) :
  exists l,
    ListUserBookings phone db = ((200, BookingList l), db) /\
    Permutation (map booking l)
                (filter (fun b => String.eqb (Booking.phone b) phone) (bookings db)) /\
    StronglySorted newer_or_same (map booking l) /\
    Forall (fun pb =>
              location pb =
                match findOne (area_by_id (Booking.parking_id (booking pb)))
                              (parking_areas db) with
                | Some a => Area.name a
                | None => "Unknown Location"
                end /\
              slot_number pb =
                match findOne (slot_by_id (Booking.slot_id (booking pb))) (slots db) with
                | Some s => inl (Slot.slot_number s)
                | None => inr "Unknown Slot"
                end) l.
Proof.
  eexists. split; [apply ListUserBookings_eq|].
  rewrite map_map. simpl. rewrite map_id.
  split; [apply sort_entry_time_desc_perm|].
  split; [apply sort_entry_time_desc_sorted|].
  apply Forall_map. apply Forall_forall. intros b _. simpl. split; reflexivity.
Qed.

(** ** CreateOrResizeArea *)

Lemma capacity_changed_spec req a :
  capacity_changed req a = true <->
  AreaReq.total_car_slots req <> Area.total_car_slots a \/
  AreaReq.total_bike_slots req <> Area.total_bike_slots a.
Proof.
  unfold capacity_changed.
  rewrite orb_true_iff, !negb_true_iff, !Z.eqb_neq. reflexivity.
Qed.

Lemma CreateOrResizeArea_keeps_bookings req now db :
  bookings (snd (CreateOrResizeArea req now db)) = bookings db.
Proof.
  unfold CreateOrResizeArea, post_owner_parking_areas. simpl.
  destruct (findOne _ (parking_areas db)) as [a|]; simpl.
  - destruct (_ || _); simpl; [|reflexivity].
    destruct (_ ++ _); reflexivity.
  - destruct (_ ++ _); reflexivity.
Qed.

Lemma resize_slots req now db a :
  findOne (area_by_name (AreaReq.parking_area_name req)) (parking_areas db) = Some a ->
  capacity_changed req a = true ->
  slots (snd (CreateOrResizeArea req now db)) =
    deleteMany (slot_by_parking (Area._id a)) (slots db) ++
    assign_ids (next_oid db) (slot_batch (Area._id a) req).
Proof.
  intros Hfind Hch.
  unfold CreateOrResizeArea, post_owner_parking_areas. simpl.
  rewrite Hfind. simpl. unfold capacity_changed in Hch. rewrite Hch. simpl.
  unfold slot_batch.
  destruct (_ ++ _); simpl; [rewrite app_nil_r|]; reflexivity.
Qed.

Lemma resize_nonempty req now db a :
  findOne (area_by_name (AreaReq.parking_area_name req)) (parking_areas db) = Some a ->
  capacity_changed req a = true ->
  slot_batch (Area._id a) req <> [] ->
  fst (CreateOrResizeArea req now db) = (200, Message "Parking area updated successfully") /\
  parking_areas (snd (CreateOrResizeArea req now db)) =
    updateOne (area_by_id (Area._id a))
      (reset_counters (AreaReq.total_car_slots req) (AreaReq.total_bike_slots req))
      (updateOne (area_by_name (AreaReq.parking_area_name req))
         (set_capacity (AreaReq.location req) (AreaReq.total_car_slots req)
            (AreaReq.total_bike_slots req) now)
         (parking_areas db)).
Proof.
  intros Hfind Hch Hne.
  unfold CreateOrResizeArea, post_owner_parking_areas. simpl.
  rewrite Hfind. simpl. unfold capacity_changed in Hch. rewrite Hch. simpl.
  unfold slot_batch in Hne.
  destruct (_ ++ _); [contradiction|]. simpl. split; reflexivity.
Qed.

Lemma resize_empty req now db a :
  findOne (area_by_name (AreaReq.parking_area_name req)) (parking_areas db) = Some a ->
  capacity_changed req a = true ->
  slot_batch (Area._id a) req = [] ->
  fst (CreateOrResizeArea req now db) =
    (500, ServerError "Server error" "Invalid BulkOperation, Batch cannot be empty") /\
  parking_areas (snd (CreateOrResizeArea req now db)) =
    updateOne (area_by_name (AreaReq.parking_area_name req))
      (set_capacity (AreaReq.location req) (AreaReq.total_car_slots req)
         (AreaReq.total_bike_slots req) now)
      (parking_areas db).
Proof.
  intros Hfind Hch He.
  unfold CreateOrResizeArea, post_owner_parking_areas. simpl.
  rewrite Hfind. simpl. unfold capacity_changed in Hch. rewrite Hch. simpl.
  unfold slot_batch in He. rewrite He. simpl. split; reflexivity.
Qed.

Lemma update_unchanged req now db a :
  findOne (area_by_name (AreaReq.parking_area_name req)) (parking_areas db) = Some a ->
  capacity_changed req a = false ->
  fst (CreateOrResizeArea req now db) = (200, Message "Parking area updated successfully") /\
  slots (snd (CreateOrResizeArea req now db)) = slots db /\
  parking_areas (snd (CreateOrResizeArea req now db)) =
    updateOne (area_by_name (AreaReq.parking_area_name req))
      (set_capacity (AreaReq.location req) (AreaReq.total_car_slots req)
         (AreaReq.total_bike_slots req) now)
      (parking_areas db).
Proof.
  intros Hfind Hch.
  unfold CreateOrResizeArea, post_owner_parking_areas. simpl.
  rewrite Hfind. simpl. unfold capacity_changed in Hch. rewrite Hch. simpl.
  repeat split; reflexivity.
Qed.

Lemma create_area req now db :
  findOne (area_by_name (AreaReq.parking_area_name req)) (parking_areas db) = None ->
  parking_areas (snd (CreateOrResizeArea req now db)) =
    parking_areas db ++ [area_doc req now (next_oid db)] /\
  slots (snd (CreateOrResizeArea req now db)) =
    slots db ++ assign_ids (S (next_oid db)) (slot_batch (next_oid db) req).
Proof.
  intros Hfind.
  unfold CreateOrResizeArea, post_owner_parking_areas. simpl.
  rewrite Hfind. simpl. unfold slot_batch.
  destruct (_ ++ _); simpl; [rewrite app_nil_r|]; split; reflexivity.
Qed.

Section Ids.
Context {A : Type}.

Lemma find_none_iff (p : A -> bool) (l : list A) :
  find p l = None <-> (forall x, In x l -> p x = false).
Proof.
  split; [apply find_none|].
  induction l as [|x r IH]; simpl; intros H; [reflexivity|].
  rewrite (H x) by (left; reflexivity). apply IH. intros y Hy. apply H. right. exact Hy.
Qed.

Lemma NoDup_map_inj {B : Type} (f : A -> B) (l : list A) (x y : A) :
  NoDup (map f l) -> In x l -> In y l -> f x = f y -> x = y.
Proof.
  induction l as [|z r IH]; simpl; intros Hnd Hx Hy Hf; [contradiction|].
  inversion Hnd as [|? ? Hnotin Hnd']; subst.
  destruct Hx as [-> | Hx], Hy as [-> | Hy]; auto.
  - exfalso. apply Hnotin. rewrite Hf. apply in_map. exact Hy.
  - exfalso. apply Hnotin. rewrite <- Hf. apply in_map. exact Hx.
Qed.

Lemma In_assign_ids (n : ObjectId) (docs : list (ObjectId -> A)) (x : A) :
  In x (assign_ids n docs) ->
  exists d k, In d docs /\ x = d (n + k)%nat.
Proof.
  revert n. induction docs as [|d r IH]; simpl; intros n H; [contradiction|].
  destruct H as [<- | H].
  - exists d, 0%nat. rewrite Nat.add_0_r. auto.
  - destruct (IH _ H) as (d' & k & Hd & ->).
    exists d', (S k). rewrite Nat.add_succ_r. auto.
Qed.

End Ids.

Lemma In_slot_batch parkingId req d :
  In d (slot_batch parkingId req) ->
  exists vt i, d = new_slot parkingId vt i.
Proof.
  unfold slot_batch, array_from. intros H.
  apply in_app_or in H as [H | H]; apply in_map_iff in H as (i & <- & _); eauto.
Qed.

Lemma generated_slot parkingId req n s :
  In s (assign_ids n (slot_batch parkingId req)) ->
  (n <= Slot._id s)%nat /\ Slot.parking_id s = parkingId /\
  Slot.status s = available /\ Slot.current_booking_id s = None.
Proof.
  intros H. apply In_assign_ids in H as (d & k & Hd & ->).
  apply In_slot_batch in Hd as (vt & i & ->). simpl.
  repeat split; lia.
Qed.

(** Claim C9. CreateOrResizeArea never touches the bookings collection. In
    a destructive resize (the named area exists and a requested total
    differs) the slots of other areas stay as they are, every booking of
    before, active ones included, is still there unchanged, and a booking
    whose slot_id named a slot of the resized area now names no slot at
    all. *)
Theorem resize_orphans_active_bookings
    (req : AreaReq.t) (now : Date) (db : DB) (a : Area.t) :
  findOne (area_by_name (AreaReq.parking_area_name req)) (parking_areas db) = Some a ->
  AreaReq.total_car_slots req <> Area.total_car_slots a \/
  AreaReq.total_bike_slots req <> Area.total_bike_slots a ->
  slot_ids_wf db ->
  let db' := snd (CreateOrResizeArea req now db) in
  bookings db' = bookings db /\
  (forall s, Slot.parking_id s <> Area._id a -> In s (slots db') <-> In s (slots db)) /\
  (forall b s,
     In b (bookings db) -> Booking.status b = active ->
     findOne (slot_by_id (Booking.slot_id b)) (slots db) = Some s ->
     Slot.parking_id s = Area._id a ->
     In b (bookings db') /\ Booking.status b = active /\
     findOne (slot_by_id (Booking.slot_id b)) (slots db') = None).
Proof.
  intros Hfind Hch [Hnd Hfresh] db'.
  apply capacity_changed_spec in Hch.
  assert (Hb : bookings db' = bookings db) by apply CreateOrResizeArea_keeps_bookings.
  assert (Hs : slots db' = deleteMany (slot_by_parking (Area._id a)) (slots db) ++
                           assign_ids (next_oid db) (slot_batch (Area._id a) req))
    by (apply resize_slots; assumption).
  split; [exact Hb|]. split.
  - intros s Hpid. rewrite Hs, in_app_iff. unfold deleteMany. rewrite filter_In.
    split.
    + intros [[Hin _] | Hnew]; [exact Hin|].
      apply generated_slot in Hnew. tauto.
    + intros Hin. left. split; [exact Hin|].
      unfold slot_by_parking. apply negb_true_iff, Nat.eqb_neq. exact Hpid.
  - intros b s Hin Hact Hslot Hpid.
    rewrite Hb. split; [exact Hin|]. split; [exact Hact|].
    apply find_some in Hslot as [Hsin Hsid].
    unfold slot_by_id in Hsid. apply Nat.eqb_eq in Hsid.
    unfold findOne. apply find_none_iff. intros x Hx.
    unfold slot_by_id. apply Nat.eqb_neq. intros Hxid.
    rewrite Hs in Hx. apply in_app_or in Hx as [Hx | Hx].
    + unfold deleteMany in Hx. apply filter_In in Hx as [Hxin Hxp].
      assert (x = s) as ->
        by (apply (NoDup_map_inj Slot._id (slots db)); congruence).
      unfold slot_by_parking in Hxp. rewrite Hpid, Nat.eqb_refl in Hxp. discriminate.
    + apply generated_slot in Hx as [Hge _].
      rewrite Forall_forall in Hfresh. specialize (Hfresh s Hsin). lia.
Qed.

Lemma booked_db_slot_ids_wf : slot_ids_wf booked_db.
Proof.
  split.
  - vm_compute. repeat constructor; simpl; intuition discriminate.
  - vm_compute. repeat constructor.
Defined.

Lemma resize_orphans_witness :
  let db' := snd (CreateOrResizeArea resize_a_to_3_1 5000 booked_db) in
  bookings db' = bookings booked_db /\
  (forall s, Slot.parking_id s <> 0%nat -> In s (slots db') <-> In s (slots booked_db)) /\
  (forall b s,
     In b (bookings booked_db) -> Booking.status b = active ->
     findOne (slot_by_id (Booking.slot_id b)) (slots booked_db) = Some s ->
     Slot.parking_id s = 0%nat ->
     In b (bookings db') /\ Booking.status b = active /\
     findOne (slot_by_id (Booking.slot_id b)) (slots db') = None).
Proof.
  apply (resize_orphans_active_bookings resize_a_to_3_1 5000 booked_db
           (inc_car (-1) 1 mall_a)).
  - reflexivity.
  - left. simpl. lia.
  - exact booked_db_slot_ids_wf.
Defined.

(** ** A resize to no slots at all *)

(** Claim C1, at the input where the code breaks it. "Mall A" holds two car
    slots and one bike slot, all free, and the inventory is balanced. The
    resize to (0, 0) sets both totals to 0 and deletes the slots; the empty
    batch then makes [insertMany] throw, the handler answers 500, and the
    counters are never reset: available + booked is 2 for cars and 1 for
    bikes against totals of 0. *)
Theorem resize_to_zero_breaks_balance :
  inventory_balanced sample_db /\
  fst (fst (CreateOrResizeArea resize_a_to_zero 5000 sample_db)) = 500 /\
  ~ inventory_balanced (snd (CreateOrResizeArea resize_a_to_zero 5000 sample_db)) /\
  exists a',
    findOne (area_by_id 0%nat)
            (parking_areas (snd (CreateOrResizeArea resize_a_to_zero 5000 sample_db)))
      = Some a' /\
    Area.available_car_slots a' + Area.booked_car_slots a' = 2 /\
    Area.total_car_slots a' = 0 /\
    Area.available_bike_slots a' + Area.booked_bike_slots a' = 1 /\
    Area.total_bike_slots a' = 0.
Proof.
  split.
  - repeat constructor.
  - split; [reflexivity|]. split.
    + intros H. vm_compute in H. inversion H as [|? ? [Hcar _] _]. discriminate Hcar.
    + eexists. split; [vm_compute; reflexivity|]. repeat split.
Qed.

(** Claim C5, at the input where the code breaks it. "Mall A" has totals
    (2, 1) and the requested capacities (0, 0) differ from them. The resize
    leaves the area without slots, but the handler stops at the empty
    [insertMany] with the 500 response, before the counters are set: they
    stay available_car = 2 and available_bike = 1 instead of 0 and 0. *)
Theorem resize_to_zero_skips_counter_reset :
  let '(res, db') := CreateOrResizeArea resize_a_to_zero 5000 sample_db in
  findOne (area_by_name "Mall A") (parking_areas sample_db) = Some mall_a /\
  capacity_changed resize_a_to_zero mall_a = true /\
  res = (500, ServerError "Server error" "Invalid BulkOperation, Batch cannot be empty") /\
  slots_of 0%nat "car" db' = [] /\ slots_of 0%nat "bike" db' = [] /\
  exists a',
    findOne (area_by_id 0%nat) (parking_areas db') = Some a' /\
    Area.total_car_slots a' = 0 /\ Area.total_bike_slots a' = 0 /\
    car_counters a' = (2, 0) /\ bike_counters a' = (1, 0).
Proof.
  vm_compute. repeat split. eexists. repeat split.
Qed.

(** ** Two reservations of one slot in flight *)

(** Claim C2, at the input where the code breaks it. Two ReserveSlot
    requests for car slot #1 of "Mall A" are in flight; both run their
    [findOne] before either writes. Both see the slot available and both are
    answered 200 with a booking id of their own; the store ends with two
    active bookings on the slot and the booked counter of cars has gone from
    0 to 2. *)
Theorem concurrent_reservations_both_succeed :
  let '(pool, db') :=
    run_schedule [0; 1; 0; 0; 0; 1; 1; 1]%nat
      [post_bookings book_car_1 3000; post_bookings book_car_1_again 3001]
      sample_db in
  (exists s, findOne (slot_by_id 1%nat) (slots sample_db) = Some s /\
             Slot.status s = available) /\
  map finished pool =
    [Some (200, SlotBooked "Slot booked" 7%nat 1);
     Some (200, SlotBooked "Slot booked" 8%nat 1)] /\
  List.length (filter (booking_active_on 1%nat) (bookings db')) = 2%nat /\
  option_map Area.booked_car_slots (findOne (area_by_id 0%nat) (parking_areas sample_db))
    = Some 0 /\
  option_map Area.booked_car_slots (findOne (area_by_id 0%nat) (parking_areas db'))
    = Some 2.
Proof.
  vm_compute. repeat split. eexists. split; reflexivity.
Qed.

(** ** Where the inventory does stay balanced *)

Section FoundFirst.
Context {A : Type}.
Implicit Types (p q : A -> bool) (f g : A -> A) (l : list A).


End FoundFirst.





(** ** Reservations that run one after the other *)

Lemma reserved_slot_is_booked req now db s :
  findOne (slot_by_id (BookReq.slot_id req)) (slots db) = Some s ->
  exists s', findOne (slot_by_id (BookReq.slot_id req)) (slots (reserved req now db)) = Some s' /\
             Slot.status s' = booked.
Proof.
  intros Hs. unfold reserved. simpl.
  rewrite find_slot_after_update by reflexivity.
  rewrite Nat.eqb_refl, Hs. simpl. eauto.
Qed.

(** Run alone one after the other, the requests for one available slot have
    one winner, the first; every later one is turned away and changes
    nothing. *)
Lemma sequential_reservations_one_winner
    (r : BookReq.t) (t : Date) (rest : list (BookReq.t * Date)) (db : DB) (s : Slot.t) :
  findOne (slot_by_id (BookReq.slot_id r)) (slots db) = Some s ->
  Slot.status s = available ->
  Forall (fun q => BookReq.slot_id (fst q) = BookReq.slot_id r) rest ->
  run_sequence ((r, t) :: rest) db =
    ((200, SlotBooked "Slot booked" (next_oid db) (Slot.slot_number s))
       :: map (fun _ => (400, Message "Slot not available")) rest,
     reserved r t db).
Proof.
  intros Hs Hav Hrest. simpl.
  rewrite (ReserveSlot_accepts r t db s Hs Hav).
  destruct (reserved_slot_is_booked r t db s Hs) as (s' & Hs' & Hbooked).
  assert (Hrun : run_sequence rest (reserved r t db) =
                 (map (fun _ => (400, Message "Slot not available")) rest,
                  reserved r t db)).
  { induction Hrest as [|[q tq] rest' Hq _ IH]; simpl; [reflexivity|].
    simpl in Hq.
    rewrite ReserveSlot_rejects.
    - rewrite IH. reflexivity.
    - intros x Hx. rewrite Hq, Hs' in Hx. injection Hx as <-. congruence. }
  rewrite Hrun. reflexivity.
Qed.

(** ** Where a resize does reset the area *)

Section Filters.
Context {A : Type}.
Implicit Types (p q : A -> bool) (f : A -> A) (l : list A).


Lemma filter_none p l : (forall x, In x l -> p x = false) -> filter p l = [].
Proof.
  induction l as [|x r IH]; simpl; intros H; [reflexivity|].
  rewrite (H x) by auto. apply IH. auto.
Qed.

End Filters.







(** ** The [_id] guarantees are kept by the engine *)

Lemma deleteMany_keeps_ids_distinct (sel : Slot.t -> bool) (docs : list Slot.t) :
  NoDup (map Slot._id docs) -> NoDup (map Slot._id (deleteMany sel docs)).
Proof.
  unfold deleteMany. intros Hdocs.
  induction docs as [|d rest IH]; simpl in *; [constructor|].
  apply NoDup_cons_iff in Hdocs as [Hfresh Hrest].
  destruct (sel d); simpl; [exact (IH Hrest)|].
  apply NoDup_cons_iff. split; [|exact (IH Hrest)].
  intros Hin. apply Hfresh.
  apply in_map_iff in Hin as (d' & Hid & Hd').
  apply filter_In in Hd' as [Hd' _].
  rewrite <- Hid. apply in_map. exact Hd'.
Qed.

Lemma generated_ids parkingId req n :
  map Slot._id (assign_ids n (slot_batch parkingId req)) =
  seq n (List.length (slot_batch parkingId req)).
Proof.
  assert (H : forall docs : list (ObjectId -> Slot.t),
             (forall d, In d docs -> forall i, Slot._id (d i) = i) ->
             forall n, map Slot._id (assign_ids n docs) = seq n (List.length docs)).
  { induction docs as [|d r IH]; simpl; intros Hd m; [reflexivity|].
    rewrite Hd by auto. rewrite IH by auto. reflexivity. }
  apply H. intros d Hd i.
  apply In_slot_batch in Hd as (vt & j & ->). reflexivity.
Qed.

Lemma slot_ids_wf_extend (old new : list Slot.t) (n m : ObjectId) parkingId req :
  NoDup (map Slot._id old) ->
  Forall (fun s => (Slot._id s < n)%nat) old ->
  (n <= m)%nat ->
  new = assign_ids m (slot_batch parkingId req) ->
  NoDup (map Slot._id (old ++ new)) /\
  Forall (fun s => (Slot._id s < m + List.length (slot_batch parkingId req))%nat)
         (old ++ new).
Proof.
  intros Hnd Hlt Hnm ->. split.
  - rewrite map_app, generated_ids. apply NoDup_app; [exact Hnd | apply seq_NoDup|].
    intros i Hi Hseq. apply in_seq in Hseq.
    apply in_map_iff in Hi as (s & <- & Hs).
    rewrite Forall_forall in Hlt. specialize (Hlt s Hs). lia.
  - apply Forall_app. split.
    + eapply Forall_impl; [|exact Hlt]. simpl. intros s Hs. lia.
    + apply Forall_forall. intros s Hs.
      assert (Hin : In (Slot._id s) (map Slot._id (assign_ids m (slot_batch parkingId req))))
        by (apply in_map; exact Hs).
      rewrite generated_ids in Hin. apply in_seq in Hin. lia.
Qed.

Lemma ReserveSlot_keeps_slot_ids req now db :
  slot_ids_wf db -> slot_ids_wf (snd (ReserveSlot req now db)).
Proof.
  intros [Hnd Hlt].
  destruct (findOne (slot_by_id (BookReq.slot_id req)) (slots db)) as [s|] eqn:E.
  - destruct (Slot.status s) eqn:Es.
    + rewrite (ReserveSlot_accepts req now db s E Es). unfold slot_ids_wf, reserved. simpl.
      split.
      * rewrite updateOne_map by reflexivity. exact Hnd.
      * apply updateOne_Forall; [intros x Hx; exact Hx|].
        eapply Forall_impl; [|exact Hlt]. simpl. intros x Hx. lia.
    + rewrite ReserveSlot_rejects; [split; assumption|].
      intros s' Hs'. rewrite E in Hs'. injection Hs' as <-. congruence.
  - rewrite ReserveSlot_rejects; [split; assumption|].
    intros s' Hs'. rewrite E in Hs'. discriminate.
Qed.

Lemma CompleteBooking_keeps_slot_ids req now db :
  slot_ids_wf db -> slot_ids_wf (snd (CompleteBooking req now db)).
Proof.
  intros [Hnd Hlt].
  destruct (existsb (booking_active_on (CompleteReq.slot_id req)) (bookings db)) eqn:E.
  - rewrite (CompleteBooking_accepts req now db E). unfold slot_ids_wf, completed_db. simpl.
    split.
    + rewrite updateOne_map by reflexivity. exact Hnd.
    + apply updateOne_Forall; [intros x Hx; exact Hx | exact Hlt].
  - rewrite (CompleteBooking_rejects req now db E). split; assumption.
Qed.

Lemma CreateOrResizeArea_next_oid req now db :
  next_oid (snd (CreateOrResizeArea req now db)) =
    match findOne (area_by_name (AreaReq.parking_area_name req)) (parking_areas db) with
    | Some a =>
        if capacity_changed req a
        then (next_oid db + List.length (slot_batch (Area._id a) req))%nat
        else next_oid db
    | None => (S (next_oid db) + List.length (slot_batch (next_oid db) req))%nat
    end.
Proof.
  unfold CreateOrResizeArea, post_owner_parking_areas, capacity_changed, slot_batch. simpl.
  destruct (findOne _ (parking_areas db)) as [a|]; simpl.
  - destruct (_ || _); simpl; [|reflexivity].
    destruct (_ ++ _); simpl; [rewrite Nat.add_0_r|]; reflexivity.
  - destruct (_ ++ _); simpl; [rewrite Nat.add_0_r|]; reflexivity.
Qed.

Lemma CreateOrResizeArea_keeps_slot_ids req now db :
  slot_ids_wf db -> slot_ids_wf (snd (CreateOrResizeArea req now db)).
Proof.
  intros [Hnd Hlt]. unfold slot_ids_wf.
  rewrite CreateOrResizeArea_next_oid.
  destruct (findOne (area_by_name (AreaReq.parking_area_name req)) (parking_areas db))
    as [a|] eqn:Hfind.
  - destruct (capacity_changed req a) eqn:Hch.
    + rewrite (resize_slots req now db a Hfind Hch).
      apply (slot_ids_wf_extend _ _ (next_oid db)); auto.
      * apply deleteMany_keeps_ids_distinct. exact Hnd.
      * apply Forall_forall. intros s Hs. unfold deleteMany in Hs.
        apply filter_In in Hs as [Hs _].
        rewrite Forall_forall in Hlt. auto.
    + destruct (update_unchanged req now db a Hfind Hch) as (_ & -> & _).
      split; assumption.
  - destruct (create_area req now db Hfind) as [_ ->].
    apply (slot_ids_wf_extend _ _ (next_oid db)); auto.
Qed.

(** ** The sample store, and the two ways of running a handler *)

Lemma sample_db_is_created :
  snd (CreateOrResizeArea create_mall_b 2000
         (snd (CreateOrResizeArea create_mall_a 1000 empty_db))) = sample_db.
Proof. reflexivity. Qed.

Lemma exec_after_step (p : prog Response) (db : DB) :
  exec p db = exec (fst (step p db)) (snd (step p db)).
Proof.
  destruct p as [r | X op k]; simpl; [reflexivity|].
  destruct (op db) as [e | [x db']]; reflexivity.
Qed.

(** ** Every resize that generates no slot loses the balance *)

Lemma updateOne_In_found {A : Type} (p : A -> bool) (f : A -> A) (l : list A) (a : A) :
  find p l = Some a -> In (f a) (updateOne p f l).
Proof.
  induction l as [|x r IH]; simpl; [discriminate|].
  destruct (p x).
  - intros [= ->]. left. reflexivity.
  - intros H. right. exact (IH H).
Qed.


(** ** One active booking per slot, along every sequential history *)

Lemma updateOne_by_unique_id (i : ObjectId) (f : Slot.t -> Slot.t) (l : list Slot.t) :
  NoDup (map Slot._id l) ->
  (forall s, Slot._id (f s) = Slot._id s) ->
  forall x, In x (updateOne (slot_by_id i) f l) ->
  exists y, In y l /\ x = if slot_by_id i y then f y else y.
Proof.
  intros Hnd Hf. induction l as [|z r IH]; simpl; intros x Hx; [contradiction|].
  inversion Hnd as [|? ? Hfresh Hr]; subst.
  destruct (slot_by_id i z) eqn:Ez.
  - destruct Hx as [<- | Hx].
    + exists z. rewrite Ez. auto.
    + exists x. split; [right; exact Hx|].
      destruct (slot_by_id i x) eqn:Ex; [|reflexivity].
      exfalso. apply Hfresh.
      unfold slot_by_id in Ez, Ex. apply Nat.eqb_eq in Ez, Ex.
      rewrite Ez, <- Ex. apply in_map. exact Hx.
  - destruct Hx as [<- | Hx].
    + exists z. rewrite Ez. auto.
    + destruct (IH Hr x Hx) as (y & Hy & ->). exists y. auto.
Qed.

Lemma filter_after_update_shrinks {A : Type} (p q : A -> bool) (f : A -> A) (l : list A) :
  (forall x, q (f x) = false) ->
  (List.length (filter q (updateOne p f l)) <= List.length (filter q l))%nat.
Proof.
  intros Hq. induction l as [|x r IH]; simpl; [lia|].
  destruct (p x); simpl.
  - rewrite Hq. destruct (q x); simpl; lia.
  - destruct (q x); simpl; lia.
Qed.

Lemma filter_after_update_drops {A : Type} (p : A -> bool) (f : A -> A) (l : list A) :
  (forall x, p (f x) = false) ->
  existsb p l = true ->
  S (List.length (filter p (updateOne p f l))) = List.length (filter p l).
Proof.
  intros Hp. induction l as [|x r IH]; simpl; [discriminate|].
  destruct (p x) eqn:E; simpl.
  - intros _. rewrite Hp. reflexivity.
  - intros H. rewrite E. apply IH. exact H.
Qed.

Lemma set_completed_not_active i exit amt now b :
  booking_active_on i (set_completed exit amt now b) = false.
Proof. unfold booking_active_on. simpl. apply andb_false_r. Qed.

Lemma length_zero_nil {A : Type} (l : list A) : (List.length l <= 0)%nat -> l = [].
Proof. destruct l; simpl; [reflexivity | lia]. Qed.

Lemma ReserveSlot_consistent req now db :
  engine_consistent db -> engine_consistent (snd (ReserveSlot req now db)).
Proof.
  intros Hc.
  pose proof Hc as (Hwf & Hlt & Hone & Hfree).
  destruct (findOne (slot_by_id (BookReq.slot_id req)) (slots db)) as [s|] eqn:E.
  2:{ rewrite ReserveSlot_rejects; [exact Hc|].
      intros s' Hs'. rewrite E in Hs'. discriminate. }
  destruct (Slot.status s) eqn:Es.
  2:{ rewrite ReserveSlot_rejects; [exact Hc|].
      intros s' Hs'. rewrite E in Hs'. injection Hs' as <-. congruence. }
  pose proof (ReserveSlot_keeps_slot_ids req now db Hwf) as Hwf'.
  rewrite (ReserveSlot_accepts req now db s E Es) in *. simpl in *.
  apply find_some in E as [Hsin Hsid].
  unfold slot_by_id in Hsid. apply Nat.eqb_eq in Hsid.
  assert (Hold : filter (booking_active_on (BookReq.slot_id req)) (bookings db) = [])
    by (rewrite <- Hsid; apply Hfree; assumption).
  assert (Hnew : forall i,
             filter (booking_active_on i) (bookings db ++ [booking_doc req now (next_oid db)])
             = filter (booking_active_on i) (bookings db) ++
               (if Nat.eqb (BookReq.slot_id req) i
                then [booking_doc req now (next_oid db)] else [])).
  { intros i. rewrite filter_app. simpl. unfold booking_active_on at 2. simpl.
    rewrite andb_true_r. reflexivity. }
  split; [exact Hwf'|]. split; [|split].
  - apply Forall_app. split.
    + eapply Forall_impl; [|exact Hlt]. simpl. intros b Hb. lia.
    + constructor; [|constructor]. simpl.
      destruct Hwf as [_ Hfresh]. rewrite Forall_forall in Hfresh.
      specialize (Hfresh s Hsin). lia.
  - intros i. rewrite Hnew.
    destruct (Nat.eqb (BookReq.slot_id req) i) eqn:Ei.
    + apply Nat.eqb_eq in Ei. subst i. rewrite Hold. simpl. lia.
    + rewrite app_nil_r. apply Hone.
  - intros s' Hs' Hav.
    destruct Hwf as [Hnd _].
    apply (updateOne_by_unique_id _ _ _ Hnd) in Hs' as (y & Hy & ->); [|reflexivity].
    destruct (slot_by_id (BookReq.slot_id req) y) eqn:Ey; [discriminate Hav|].
    rewrite Hnew. unfold slot_by_id in Ey. rewrite Nat.eqb_sym in Ey. rewrite Ey.
    rewrite app_nil_r. apply Hfree; assumption.
Qed.

Lemma CompleteBooking_consistent req now db :
  engine_consistent db -> engine_consistent (snd (CompleteBooking req now db)).
Proof.
  intros Hc.
  pose proof Hc as (Hwf & Hlt & Hone & Hfree).
  destruct (existsb (booking_active_on (CompleteReq.slot_id req)) (bookings db)) eqn:E.
  2:{ rewrite (CompleteBooking_rejects req now db E). exact Hc. }
  pose proof (CompleteBooking_keeps_slot_ids req now db Hwf) as Hwf'.
  rewrite (CompleteBooking_accepts req now db E) in *.
  unfold engine_consistent, completed_db. simpl.
  assert (Hshrink : forall i,
             (List.length (filter (booking_active_on i)
                (updateOne (booking_active_on (CompleteReq.slot_id req))
                   (set_completed (CompleteReq.exit_time req) (CompleteReq.amount req) now)
                   (bookings db)))
              <= List.length (filter (booking_active_on i) (bookings db)))%nat).
  { intros i. apply filter_after_update_shrinks.
    intros b. apply set_completed_not_active. }
  split; [exact Hwf'|]. split; [|split].
  - apply updateOne_Forall; [intros b Hb; exact Hb | exact Hlt].
  - intros i. specialize (Hshrink i). specialize (Hone i). lia.
  - intros s' Hs' Hav. apply length_zero_nil.
    destruct Hwf as [Hnd _].
    apply (updateOne_by_unique_id _ _ _ Hnd) in Hs' as (y & Hy & ->); [|reflexivity].
    destruct (slot_by_id (CompleteReq.slot_id req) y) eqn:Ey.
    + simpl. unfold slot_by_id in Ey. apply Nat.eqb_eq in Ey. rewrite Ey.
      pose proof (filter_after_update_drops
                    (booking_active_on (CompleteReq.slot_id req))
                    (set_completed (CompleteReq.exit_time req) (CompleteReq.amount req) now)
                    (bookings db)
                    (fun b => set_completed_not_active _ _ _ _ b) E) as Hdrop.
      specialize (Hone (CompleteReq.slot_id req)). lia.
    + specialize (Hshrink (Slot._id y)).
      rewrite (Hfree y Hy Hav) in Hshrink. exact Hshrink.
Qed.

Lemma CreateOrResizeArea_next_oid_grows req now db :
  (next_oid db <= next_oid (snd (CreateOrResizeArea req now db)))%nat.
Proof.
  rewrite CreateOrResizeArea_next_oid.
  destruct (findOne _ _) as [a|]; [destruct (capacity_changed req a)|]; lia.
Qed.

Lemma CreateOrResizeArea_slots_old_or_fresh req now db s :
  In s (slots (snd (CreateOrResizeArea req now db))) ->
  In s (slots db) \/ ((next_oid db <= Slot._id s)%nat /\ Slot.status s = available).
Proof.
  destruct (findOne (area_by_name (AreaReq.parking_area_name req)) (parking_areas db))
    as [a|] eqn:Hfind.
  - destruct (capacity_changed req a) eqn:Hch.
    + rewrite (resize_slots req now db a Hfind Hch). intros H.
      apply in_app_or in H as [H | H].
      * left. unfold deleteMany in H. apply filter_In in H. tauto.
      * right. apply generated_slot in H. tauto.
    + destruct (update_unchanged req now db a Hfind Hch) as (_ & -> & _). auto.
  - destruct (create_area req now db Hfind) as [_ ->]. intros H.
    apply in_app_or in H as [H | H]; [auto|].
    right. apply generated_slot in H. split; [lia | tauto].
Qed.

Lemma CreateOrResizeArea_consistent req now db :
  engine_consistent db -> engine_consistent (snd (CreateOrResizeArea req now db)).
Proof.
  intros (Hwf & Hlt & Hone & Hfree).
  pose proof (CreateOrResizeArea_next_oid_grows req now db) as Hgrow.
  split; [apply CreateOrResizeArea_keeps_slot_ids; exact Hwf|].
  rewrite CreateOrResizeArea_keeps_bookings.
  split; [|split; [exact Hone|]].
  - eapply Forall_impl; [|exact Hlt]. simpl. intros b Hb. lia.
  - intros s Hs Hav.
    apply CreateOrResizeArea_slots_old_or_fresh in Hs as [Hs | [Hge _]].
    + apply Hfree; assumption.
    + apply filter_none. intros b Hb.
      unfold booking_active_on. apply andb_false_iff. left. apply Nat.eqb_neq.
      rewrite Forall_forall in Hlt. specialize (Hlt b Hb). lia.
Qed.

Lemma empty_db_consistent : engine_consistent empty_db.
Proof.
  repeat split; simpl; try constructor; auto.
Qed.

(** Whatever reservations, completions and area updates are served one after
    the other on an empty database, no slot id ever has two active bookings,
    and a slot whose status is available has none. *)
Theorem sequential_history_one_active_booking (cs : list Command) :
  let db := perform_all cs empty_db in
  (forall i, (List.length (filter (booking_active_on i) (bookings db)) <= 1)%nat) /\
  (forall s, In s (slots db) -> Slot.status s = available ->
             filter (booking_active_on (Slot._id s)) (bookings db) = []).
Proof.
  assert (H : forall d, engine_consistent d -> engine_consistent (perform_all cs d)).
  { unfold perform_all. induction cs as [|c r IH]; simpl; intros d Hd; [exact Hd|].
    apply IH. destruct c; simpl.
    - apply ReserveSlot_consistent; exact Hd.
    - apply CompleteBooking_consistent; exact Hd.
    - apply CreateOrResizeArea_consistent; exact Hd. }
  destruct (H empty_db empty_db_consistent) as (_ & _ & Hone & Hfree).
  split; assumption.
Qed.

(** ** The balance of the counters, operation by operation *)


Lemma sample_db_balanced : inventory_balanced sample_db.
Proof. repeat constructor. Defined.










Lemma sequential_reservations_witness :
  run_sequence [(book_car_1, 3000); (book_car_1_again, 3001); (book_mismatched, 3002)]
               sample_db =
    ([(200, SlotBooked "Slot booked" 7%nat 1);
      (400, Message "Slot not available");
      (400, Message "Slot not available")],
     reserved book_car_1 3000 sample_db).
Proof.
  apply (sequential_reservations_one_winner book_car_1 3000
           [(book_car_1_again, 3001); (book_mismatched, 3002)] sample_db
           (new_slot 0%nat "car" 0%nat 1%nat)).
  - reflexivity.
  - reflexivity.
  - repeat constructor.
Defined.

(** ** What a reservation and a completion write *)






(** A slot with exactly one active booking can be completed once: the
    second completion, whatever area, type, time and amount it supplies, is
    answered 400 and changes nothing. *)
Theorem second_completion_is_rejected
    (c1 c2 : CompleteReq.t) (now1 now2 : Date) (db : DB) :
  CompleteReq.slot_id c2 = CompleteReq.slot_id c1 ->
  List.length (filter (booking_active_on (CompleteReq.slot_id c1)) (bookings db)) = 1%nat ->
  let db1 := snd (CompleteBooking c1 now1 db) in
  fst (CompleteBooking c1 now1 db) = (200, Message "Booking completed and slot freed") /\
  CompleteBooking c2 now2 db1 = ((400, Message "No active booking found"), db1).
Proof.
  intros Hid Hone.
  assert (E : existsb (booking_active_on (CompleteReq.slot_id c1)) (bookings db) = true).
  { destruct (existsb _ (bookings db)) eqn:E; [reflexivity|].
    rewrite filter_none in Hone; [discriminate|].
    intros b Hb. apply not_true_is_false. intros Hp.
    assert (existsb (booking_active_on (CompleteReq.slot_id c1)) (bookings db) = true)
      by (apply existsb_exists; eauto).
    congruence. }
  rewrite (CompleteBooking_accepts c1 now1 db E). simpl.
  split; [reflexivity|].
  apply CompleteBooking_rejects. rewrite Hid. unfold completed_db; simpl.
  pose proof (filter_after_update_drops
                (booking_active_on (CompleteReq.slot_id c1))
                (set_completed (CompleteReq.exit_time c1) (CompleteReq.amount c1) now1)
                (bookings db)
                (fun b => set_completed_not_active _ _ _ _ b) E) as Hdrop.
  destruct (existsb _ (updateOne _ _ _)) eqn:E'; [|reflexivity].
  apply existsb_exists in E' as (b & Hb & Hp).
  assert (Hin : In b (filter (booking_active_on (CompleteReq.slot_id c1))
                        (updateOne (booking_active_on (CompleteReq.slot_id c1))
                           (set_completed (CompleteReq.exit_time c1)
                              (CompleteReq.amount c1) now1) (bookings db))))
    by (apply filter_In; auto).
  destruct (filter _ (updateOne _ _ _)); [contradiction | simpl in Hdrop; lia].
Qed.

Lemma second_completion_witness :
  let db1 := snd (CompleteBooking complete_car_1 4000 booked_db) in
  fst (CompleteBooking complete_car_1 4000 booked_db)
    = (200, Message "Booking completed and slot freed") /\
  CompleteBooking complete_car_1_as_bike 4001 db1
    = ((400, Message "No active booking found"), db1).
Proof.
  apply (second_completion_is_rejected complete_car_1 complete_car_1_as_bike
           4000 4001 booked_db); reflexivity.
Defined.

(** ** Creating and updating areas *)

Lemma find_app_none_then {A : Type} (p : A -> bool) (l l' : list A) :
  find p l = None -> find p (l ++ l') = find p l'.
Proof.
  induction l as [|y r IH]; simpl; [reflexivity|].
  destruct (p y); [discriminate | exact IH].
Qed.

Lemma find_area_by_other_name n n' f l :
  (forall a, Area.name (f a) = Area.name a) ->
  n' <> n ->
  findOne (area_by_name n') (updateOne (area_by_name n) f l) = findOne (area_by_name n') l.
Proof.
  intros Hf Hn. unfold findOne. apply find_updateOne_other.
  - intros a. unfold area_by_name. rewrite Hf. reflexivity.
  - intros a Ha. unfold area_by_name in *. apply String.eqb_eq in Ha.
    apply String.eqb_neq. congruence.
Qed.

(** An update of an existing area with both totals as stored answers 200 and
    writes the location and [updatedAt] of that area, nothing else of it:
    its id, name, totals, counters and creation date stay, as do all areas
    of another name, every slot and every booking. *)
Theorem update_with_same_totals_keeps_inventory
    (req : AreaReq.t) (now : Date) (db : DB) (a : Area.t) :
  findOne (area_by_name (AreaReq.parking_area_name req)) (parking_areas db) = Some a ->
  AreaReq.total_car_slots req = Area.total_car_slots a ->
  AreaReq.total_bike_slots req = Area.total_bike_slots a ->
  let db' := snd (CreateOrResizeArea req now db) in
  fst (CreateOrResizeArea req now db) = (200, Message "Parking area updated successfully") /\
  slots db' = slots db /\ bookings db' = bookings db /\ next_oid db' = next_oid db /\
  (exists a',
     findOne (area_by_name (AreaReq.parking_area_name req)) (parking_areas db') = Some a' /\
     Area.location a' = AreaReq.location req /\ Area.updatedAt a' = Some now /\
     (Area._id a', Area.name a', Area.createdAt a') =
     (Area._id a, Area.name a, Area.createdAt a) /\
     (Area.total_car_slots a', Area.total_bike_slots a') =
     (Area.total_car_slots a, Area.total_bike_slots a) /\
     car_counters a' = car_counters a /\ bike_counters a' = bike_counters a) /\
  (forall n, n <> AreaReq.parking_area_name req ->
     findOne (area_by_name n) (parking_areas db') = findOne (area_by_name n) (parking_areas db)).
Proof.
  intros Hfind Hc Hb db'.
  assert (Hch : capacity_changed req a = false).
  { unfold capacity_changed. rewrite Hc, Hb, !Z.eqb_refl. reflexivity. }
  destruct (update_unchanged req now db a Hfind Hch) as (Hres & Hslots & Hareas).
  subst db'. split; [exact Hres|]. split; [exact Hslots|].
  split; [apply CreateOrResizeArea_keeps_bookings|].
  split; [rewrite CreateOrResizeArea_next_oid, Hfind, Hch; reflexivity|].
  rewrite Hareas. split.
  - unfold findOne. rewrite find_updateOne_same by reflexivity.
    unfold findOne in Hfind. rewrite Hfind. simpl.
    eexists. split; [reflexivity|]. simpl. rewrite Hc, Hb. repeat split.
  - intros n Hn. apply find_area_by_other_name; [reflexivity | exact Hn].
Qed.

Lemma update_with_same_totals_witness :
  let db' := snd (CreateOrResizeArea create_mall_a 6000 booked_db) in
  fst (CreateOrResizeArea create_mall_a 6000 booked_db)
    = (200, Message "Parking area updated successfully") /\
  slots db' = slots booked_db /\ bookings db' = bookings booked_db /\
  next_oid db' = next_oid booked_db /\
  (exists a',
     findOne (area_by_name "Mall A") (parking_areas db') = Some a' /\
     Area.location a' = {| lat := 10; lng := 76 |} /\ Area.updatedAt a' = Some 6000 /\
     (Area._id a', Area.name a', Area.createdAt a') = (0%nat, "Mall A", 1000) /\
     (Area.total_car_slots a', Area.total_bike_slots a') = (2, 1) /\
     car_counters a' = (1, 1) /\ bike_counters a' = (1, 0)) /\
  (forall n, n <> "Mall A" ->
     findOne (area_by_name n) (parking_areas db') =
     findOne (area_by_name n) (parking_areas booked_db)).
Proof.
  exact (update_with_same_totals_keeps_inventory create_mall_a 6000 booked_db
           (inc_car (-1) 1 mall_a) eq_refl eq_refl eq_refl).
Defined.

Lemma create_response req now db :
  findOne (area_by_name (AreaReq.parking_area_name req)) (parking_areas db) = None ->
  fst (CreateOrResizeArea req now db) =
    match slot_batch (next_oid db) req with
    | [] => (500, ServerError "Server error" "Invalid BulkOperation, Batch cannot be empty")
    | _ => (200, AreaCreated "Parking area created" (next_oid db))
    end.
Proof.
  intros Hfind.
  unfold CreateOrResizeArea, post_owner_parking_areas, slot_batch. simpl.
  rewrite Hfind. simpl.
  destruct (_ ++ _); reflexivity.
Qed.



(** Creating an area with capacities that are both zero (or below) inserts
    the area and then fails: the empty [insertMany] throws and the answer is
    500 although the area now exists, without slots. The same request sent
    again finds the area, sees its totals unchanged, and is answered 200
    "Parking area updated successfully"; no slot is ever generated. *)
Theorem create_without_slots_fails_then_updates
    (req : AreaReq.t) (now now' : Date) (db : DB) :
  findOne (area_by_name (AreaReq.parking_area_name req)) (parking_areas db) = None ->
  AreaReq.total_car_slots req <= 0 -> AreaReq.total_bike_slots req <= 0 ->
  let db1 := snd (CreateOrResizeArea req now db) in
  fst (CreateOrResizeArea req now db) =
    (500, ServerError "Server error" "Invalid BulkOperation, Batch cannot be empty") /\
  parking_areas db1 = parking_areas db ++ [area_doc req now (next_oid db)] /\
  slots db1 = slots db /\
  fst (CreateOrResizeArea req now' db1) =
    (200, Message "Parking area updated successfully") /\
  slots (snd (CreateOrResizeArea req now' db1)) = slots db.
Proof.
  intros Hfind Hc Hb db1.
  assert (He : slot_batch (next_oid db) req = []).
  { unfold slot_batch, array_from.
    replace (Z.to_nat (AreaReq.total_car_slots req)) with 0%nat by lia.
    replace (Z.to_nat (AreaReq.total_bike_slots req)) with 0%nat by lia.
    reflexivity. }
  destruct (create_area req now db Hfind) as [Hareas Hslots].
  pose proof (create_response req now db Hfind) as Hres.
  rewrite He in Hres, Hslots. simpl in Hslots. rewrite app_nil_r in Hslots.
  subst db1. split; [exact Hres|]. split; [exact Hareas|]. split; [exact Hslots|].
  assert (Hfind1 : findOne (area_by_name (AreaReq.parking_area_name req))
                     (parking_areas (snd (CreateOrResizeArea req now db)))
                   = Some (area_doc req now (next_oid db))).
  { rewrite Hareas. unfold findOne in *. rewrite find_app_none_then by exact Hfind.
    simpl. unfold area_by_name. simpl. rewrite String.eqb_refl. reflexivity. }
  assert (Hch : capacity_changed req (area_doc req now (next_oid db)) = false).
  { unfold capacity_changed. simpl. rewrite !Z.eqb_refl. reflexivity. }
  destruct (update_unchanged req now' _ _ Hfind1 Hch) as (Hres2 & Hslots2 & _).
  split; [exact Hres2|]. rewrite Hslots2. exact Hslots.
Qed.

Lemma create_without_slots_witness :
  let db1 := snd (CreateOrResizeArea resize_a_to_zero 7000 empty_db) in
  fst (CreateOrResizeArea resize_a_to_zero 7000 empty_db) =
    (500, ServerError "Server error" "Invalid BulkOperation, Batch cannot be empty") /\
  parking_areas db1 = parking_areas empty_db ++ [area_doc resize_a_to_zero 7000 0%nat] /\
  slots db1 = slots empty_db /\
  fst (CreateOrResizeArea resize_a_to_zero 7001 db1) =
    (200, Message "Parking area updated successfully") /\
  slots (snd (CreateOrResizeArea resize_a_to_zero 7001 db1)) = slots empty_db.
Proof.
  apply (create_without_slots_fails_then_updates resize_a_to_zero 7000 7001 empty_db).
  - reflexivity.
  - simpl. lia.
  - simpl. lia.
Defined.

(** ** Area names and ids along every sequential history *)

Lemma upsert_existing_keeps_names_and_ids req now db a :
  findOne (area_by_name (AreaReq.parking_area_name req)) (parking_areas db) = Some a ->
  map Area.name (parking_areas (snd (CreateOrResizeArea req now db)))
    = map Area.name (parking_areas db) /\
  map Area._id (parking_areas (snd (CreateOrResizeArea req now db)))
    = map Area._id (parking_areas db).
Proof.
  intros Hfind.
  destruct (capacity_changed req a) eqn:Hch.
  - destruct (slot_batch (Area._id a) req) eqn:Eb.
    + destruct (resize_empty req now db a Hfind Hch Eb) as [_ ->].
      split; apply updateOne_map; reflexivity.
    + assert (Hne : slot_batch (Area._id a) req <> []) by (rewrite Eb; discriminate).
      destruct (resize_nonempty req now db a Hfind Hch Hne) as [_ ->].
      split; rewrite !updateOne_map; reflexivity.
  - destruct (update_unchanged req now db a Hfind Hch) as (_ & _ & ->).
    split; apply updateOne_map; reflexivity.
Qed.

Lemma Forall_map_lt {A : Type} (f : A -> nat) (n m : nat) (l l' : list A) :
  map f l' = map f l -> (n <= m)%nat ->
  Forall (fun x => (f x < n)%nat) l -> Forall (fun x => (f x < m)%nat) l'.
Proof.
  intros Hmap Hnm H.
  apply Forall_map with (f := f) (P := fun k => (k < m)%nat).
  rewrite Hmap. apply Forall_map.
  eapply Forall_impl; [|exact H]. simpl. intros x Hx. lia.
Qed.

Lemma perform_keeps_areas_wf (c : Command) (db : DB) :
  areas_wf db -> areas_wf (perform c db).
Proof.
  intros (Hnames & Hids & Hlt). unfold areas_wf.
  destruct c as [req now | req now | req now]; simpl.
  - destruct (findOne (slot_by_id (BookReq.slot_id req)) (slots db)) as [s|] eqn:E.
    2:{ rewrite ReserveSlot_rejects; [auto|].
        intros s' Hs'. rewrite E in Hs'. discriminate. }
    destruct (Slot.status s) eqn:Es.
    2:{ rewrite ReserveSlot_rejects; [auto|].
        intros s' Hs'. rewrite E in Hs'. injection Hs' as <-. congruence. }
    rewrite (ReserveSlot_accepts req now db s E Es). unfold reserved. simpl.
    rewrite !updateOne_map by (intros a; try apply reserve_inc_id;
      unfold reserve_inc; destruct (String.eqb _ _); reflexivity).
    split; [exact Hnames|]. split; [exact Hids|].
    eapply Forall_map_lt; [|apply Nat.le_succ_diag_r|exact Hlt].
    apply updateOne_map. apply reserve_inc_id.
  - destruct (existsb (booking_active_on (CompleteReq.slot_id req)) (bookings db)) eqn:E.
    2:{ rewrite (CompleteBooking_rejects req now db E). auto. }
    rewrite (CompleteBooking_accepts req now db E). unfold completed_db. simpl.
    rewrite !updateOne_map by (intros a; try apply release_inc_id;
      unfold release_inc; destruct (String.eqb _ _); reflexivity).
    split; [exact Hnames|]. split; [exact Hids|].
    eapply Forall_map_lt; [|apply Nat.le_refl|exact Hlt].
    apply updateOne_map. apply release_inc_id.
  - pose proof (CreateOrResizeArea_next_oid_grows req now db) as Hgrow.
    destruct (findOne (area_by_name (AreaReq.parking_area_name req)) (parking_areas db))
      as [a|] eqn:Hfind.
    + destruct (upsert_existing_keeps_names_and_ids req now db a Hfind) as [Hn Hi].
      rewrite Hn, Hi. split; [exact Hnames|]. split; [exact Hids|].
      eapply Forall_map_lt; [exact Hi | exact Hgrow | exact Hlt].
    + assert (Hnext : (S (next_oid db) <= next_oid (snd (CreateOrResizeArea req now db)))%nat)
        by (rewrite CreateOrResizeArea_next_oid, Hfind; lia).
      destruct (create_area req now db Hfind) as [-> _].
      rewrite !map_app. simpl. split; [|split].
      * apply NoDup_app; [exact Hnames | repeat constructor; simpl; tauto|].
        intros n Hn [<- | []]. apply in_map_iff in Hn as (x & Hx & Hin).
        unfold findOne in Hfind.
        pose proof (find_none _ _ Hfind x Hin) as Hno.
        unfold area_by_name in Hno. apply String.eqb_neq in Hno. contradiction.
      * apply NoDup_app; [exact Hids | repeat constructor; simpl; tauto|].
        intros i Hi [<- | []]. apply in_map_iff in Hi as (x & Hx & Hin).
        rewrite Forall_forall in Hlt. specialize (Hlt x Hin). lia.
      * apply Forall_app. split.
        -- eapply Forall_impl; [|exact Hlt]. simpl. intros x Hx. lia.
        -- repeat constructor. simpl. lia.
Qed.

(** Whatever reservations, completions and area updates are served one after
    the other on an empty database, no two areas ever share a name or an
    id: an area is only inserted when no area of its name is found. *)
Theorem sequential_history_unique_areas (cs : list Command) :
  NoDup (map Area.name (parking_areas (perform_all cs empty_db))) /\
  NoDup (map Area._id (parking_areas (perform_all cs empty_db))).
Proof.
  assert (H : forall d, areas_wf d -> areas_wf (perform_all cs d)).
  { unfold perform_all. induction cs as [|c r IH]; simpl; intros d Hd; [exact Hd|].
    apply IH. apply perform_keeps_areas_wf. exact Hd. }
  destruct (H empty_db) as (Hn & Hi & _).
  - repeat split; simpl; constructor.
  - split; assumption.
Qed.

(** ** The slot listing *)

Lemma ListSlots_eq (id : ObjectId) (vt : option string) (db : DB) :
  ListSlots id vt db =
    ((200, Slots
             (map (fun s =>
                     {| slot := s;
                        is_booked :=
                          existsb (Nat.eqb (Slot._id s))
                            (map Booking.slot_id
                               (filter (booking_active_in id) (bookings db))) |})
                  (filter (slot_query id vt) (slots db)))),
     db).
Proof. reflexivity. Qed.

Lemma is_booked_spec (id : ObjectId) (i : ObjectId) (l : list Booking.t) :
  existsb (Nat.eqb i) (map Booking.slot_id (filter (booking_active_in id) l)) = true <->
  exists b, In b l /\ Booking.parking_id b = id /\ Booking.status b = active /\
            Booking.slot_id b = i.
Proof.
  rewrite existsb_exists. split.
  - intros (j & Hj & Hij). apply Nat.eqb_eq in Hij. subst j.
    apply in_map_iff in Hj as (b & Hb & Hin).
    apply filter_In in Hin as [Hin Hp]. unfold booking_active_in in Hp.
    apply andb_true_iff in Hp as [Hp Hs].
    apply Nat.eqb_eq in Hp. apply booking_status_eqb_spec in Hs.
    exists b. auto.
  - intros (b & Hin & Hp & Hs & Hi). exists i. split; [|apply Nat.eqb_refl].
    rewrite <- Hi. apply in_map. apply filter_In. split; [exact Hin|].
    unfold booking_active_in. apply andb_true_iff. split.
    + apply Nat.eqb_eq; exact Hp.
    + apply booking_status_eqb_spec; exact Hs.
Qed.


Lemma no_active_on_slot_in_area (id i : ObjectId) (l : list Booking.t) :
  filter (booking_active_on i) l = [] ->
  existsb (Nat.eqb i) (map Booking.slot_id (filter (booking_active_in id) l)) = false.
Proof.
  intros Hnone. apply not_true_is_false. intros H.
  apply is_booked_spec in H as (b & Hin & _ & Hs & Hi).
  assert (Hb : In b (filter (booking_active_on i) l)).
  { apply filter_In. split; [exact Hin|]. unfold booking_active_on.
    apply andb_true_iff. split.
    - apply Nat.eqb_eq; exact Hi.
    - apply booking_status_eqb_spec; exact Hs. }
  rewrite Hnone in Hb. contradiction.
Qed.

(** After an accepted reservation on a store the engine wrote, the listing
    of the slot's own area shows the slot with status booked, and marks it
    [is_booked] exactly when the reservation supplied that area's id: a
    reservation made under another area id leaves the slot booked by status
    and not booked by the listing. *)
Theorem listing_after_reservation (req : BookReq.t) (now : Date) (db : DB) (s : Slot.t) :
  engine_consistent db ->
  findOne (slot_by_id (BookReq.slot_id req)) (slots db) = Some s ->
  Slot.status s = available ->
  let db' := snd (ReserveSlot req now db) in
  exists l v,
    ListSlots (Slot.parking_id s) None db' = ((200, Slots l), db') /\
    In v l /\
    Slot._id (slot v) = BookReq.slot_id req /\
    Slot.status (slot v) = booked /\
    is_booked v = Nat.eqb (BookReq.parking_id req) (Slot.parking_id s).
Proof.
  intros (_ & _ & _ & Hfree) Hs Hav db'. subst db'.
  rewrite (ReserveSlot_accepts req now db s Hs Hav). simpl.
  pose proof (find_some _ _ Hs) as [Hsin Hsid].
  unfold slot_by_id in Hsid. apply Nat.eqb_eq in Hsid.
  eexists. eexists. split; [apply ListSlots_eq|].
  split; [|split; [|split]].
  - apply in_map_iff. exists (slot_set booked (Some (next_oid db)) s).
    split; [reflexivity|]. apply filter_In. split.
    + unfold reserved. simpl. apply updateOne_In_found. exact Hs.
    + unfold slot_query, slot_by_parking. simpl. rewrite Nat.eqb_refl. reflexivity.
  - simpl. exact Hsid.
  - reflexivity.
  - simpl. unfold reserved. simpl.
    rewrite filter_app, map_app, existsb_app.
    rewrite Hsid.
    rewrite (no_active_on_slot_in_area _ _ _
               (eq_trans (f_equal (fun i => filter (booking_active_on i) (bookings db))
                            (eq_sym Hsid)) (Hfree s Hsin Hav))).
    simpl. unfold booking_active_in. simpl. rewrite andb_true_r.
    destruct (Nat.eqb (BookReq.parking_id req) (Slot.parking_id s)); simpl;
      [rewrite Nat.eqb_refl|]; reflexivity.
Qed.

Lemma sample_db_consistent : engine_consistent sample_db.
Proof.
  split; [|split; [|split]].
  - split.
    + vm_compute. repeat constructor; simpl; intuition discriminate.
    + vm_compute. repeat constructor.
  - constructor.
  - intros i. simpl. lia.
  - intros s _ _. reflexivity.
Defined.

Lemma listing_after_reservation_witness :
  let db' := snd (ReserveSlot book_mismatched 3000 sample_db) in
  exists l v,
    ListSlots 0%nat None db' = ((200, Slots l), db') /\
    In v l /\
    Slot._id (slot v) = 1%nat /\
    Slot.status (slot v) = booked /\
    is_booked v = false.
Proof.
  exact (listing_after_reservation book_mismatched 3000 sample_db
           (new_slot 0%nat "car" 0%nat 1%nat) sample_db_consistent eq_refl eq_refl).
Defined.

(** After a destructive resize of an area in a store the engine wrote, the
    listing of that area shows only slots that are available and not marked
    [is_booked], whatever active bookings the area had: the bookings still
    name the deleted slots, never the regenerated ones. *)
Theorem listing_after_resize_is_all_free
    (req : AreaReq.t) (now : Date) (db : DB) (a : Area.t) (vt : option string) :
  engine_consistent db ->
  findOne (area_by_name (AreaReq.parking_area_name req)) (parking_areas db) = Some a ->
  AreaReq.total_car_slots req <> Area.total_car_slots a \/
  AreaReq.total_bike_slots req <> Area.total_bike_slots a ->
  let db' := snd (CreateOrResizeArea req now db) in
  exists l,
    ListSlots (Area._id a) vt db' = ((200, Slots l), db') /\
    Forall (fun v => Slot.status (slot v) = available /\ is_booked v = false) l.
Proof.
  intros (_ & Hlt & _ & _) Hfind Hch db'. apply capacity_changed_spec in Hch.
  eexists. split; [apply ListSlots_eq|].
  apply Forall_map. apply Forall_forall. intros s Hs. simpl.
  apply filter_In in Hs as [Hs Hq]. subst db'.
  rewrite (resize_slots req now db a Hfind Hch) in Hs.
  rewrite CreateOrResizeArea_keeps_bookings.
  apply in_app_or in Hs as [Hs | Hs].
  - exfalso. unfold deleteMany in Hs. apply filter_In in Hs as [_ Hs].
    unfold slot_query in Hq. apply andb_true_iff in Hq as [Hq _].
    rewrite Hq in Hs. discriminate.
  - apply generated_slot in Hs as (Hge & _ & Hav & _). split; [exact Hav|].
    apply not_true_is_false. intros H.
    apply is_booked_spec in H as (b & Hb & _ & _ & Hi).
    rewrite Forall_forall in Hlt. specialize (Hlt b Hb). lia.
Qed.

Lemma booked_db_consistent : engine_consistent booked_db.
Proof. exact (ReserveSlot_consistent book_car_1 3000 sample_db sample_db_consistent). Defined.

Lemma listing_after_resize_witness :
  let db' := snd (CreateOrResizeArea resize_a_to_3_1 5000 booked_db) in
  exists l,
    ListSlots 0%nat (Some "Car") db' = ((200, Slots l), db') /\
    Forall (fun v => Slot.status (slot v) = available /\ is_booked v = false) l.
Proof.
  apply (listing_after_resize_is_all_free resize_a_to_3_1 5000 booked_db
           (inc_car (-1) 1 mall_a) (Some "Car")).
  - exact booked_db_consistent.
  - reflexivity.
  - left. simpl. lia.
Defined.

(** ** The active bookings of a slot *)

(** On a store the engine wrote, the owner's lookup of a slot returns
    exactly the booking just made after an accepted reservation, and the
    empty list after the completion that follows; the lookup itself writes
    nothing. *)
Theorem owner_bookings_follow_reservation
    (r : BookReq.t) (c : CompleteReq.t) (now1 now2 : Date) (db : DB) (s : Slot.t) :
  engine_consistent db ->
  findOne (slot_by_id (BookReq.slot_id r)) (slots db) = Some s ->
  Slot.status s = available ->
  CompleteReq.slot_id c = BookReq.slot_id r ->
  let db1 := snd (ReserveSlot r now1 db) in
  let db2 := snd (CompleteBooking c now2 db1) in
  exists b,
    ActiveBookingsOfSlot (BookReq.slot_id r) db1 = ((200, Bookings [b]), db1) /\
    In b (bookings db1) /\
    fst (ReserveSlot r now1 db) =
      (200, SlotBooked "Slot booked" (Booking._id b) (Slot.slot_number s)) /\
    ActiveBookingsOfSlot (BookReq.slot_id r) db2 = ((200, Bookings []), db2).
Proof.
  intros Hc Hs Hav Hid db1 db2.
  pose proof (ReserveSlot_consistent r now1 db Hc) as Hc1.
  destruct Hc as (_ & _ & _ & Hfree).
  pose proof (find_some _ _ Hs) as [Hsin Hsid].
  unfold slot_by_id in Hsid. apply Nat.eqb_eq in Hsid.
  assert (Hold : filter (booking_active_on (BookReq.slot_id r)) (bookings db) = [])
    by (rewrite <- Hsid; apply Hfree; assumption).
  assert (Hone : filter (booking_active_on (BookReq.slot_id r)) (bookings db1)
                 = [booking_doc r now1 (next_oid db)]).
  { subst db1. rewrite (ReserveSlot_accepts r now1 db s Hs Hav). unfold reserved. simpl.
    rewrite filter_app, Hold. simpl. unfold booking_active_on. simpl.
    rewrite Nat.eqb_refl. reflexivity. }
  exists (booking_doc r now1 (next_oid db)).
  split; [unfold ActiveBookingsOfSlot, serve; simpl; rewrite Hone; reflexivity|].
  split.
  { assert (Hin : In (booking_doc r now1 (next_oid db))
                    (filter (booking_active_on (BookReq.slot_id r)) (bookings db1)))
      by (rewrite Hone; left; reflexivity).
    apply filter_In in Hin. tauto. }
  split; [rewrite (ReserveSlot_accepts r now1 db s Hs Hav); reflexivity|].
  assert (E : existsb (booking_active_on (CompleteReq.slot_id c)) (bookings db1) = true).
  { rewrite Hid. apply existsb_exists. exists (booking_doc r now1 (next_oid db)).
    assert (Hin : In (booking_doc r now1 (next_oid db))
                    (filter (booking_active_on (BookReq.slot_id r)) (bookings db1)))
      by (rewrite Hone; left; reflexivity).
    apply filter_In in Hin. exact Hin. }
  pose proof (filter_after_update_drops
                (booking_active_on (CompleteReq.slot_id c))
                (set_completed (CompleteReq.exit_time c) (CompleteReq.amount c) now2)
                (bookings db1)
                (fun b => set_completed_not_active _ _ _ _ b) E) as Hdrop.
  unfold ActiveBookingsOfSlot, serve. simpl. subst db2.
  rewrite (CompleteBooking_accepts c now2 db1 E). unfold completed_db. simpl.
  rewrite Hid in Hdrop. rewrite Hone in Hdrop. simpl in Hdrop.
  rewrite Hid.
  destruct (filter _ (updateOne _ _ _)); [reflexivity | simpl in Hdrop; lia].
Qed.

Lemma owner_bookings_witness :
  let db1 := snd (ReserveSlot book_car_1 3000 sample_db) in
  let db2 := snd (CompleteBooking complete_car_1 4000 db1) in
  exists b,
    ActiveBookingsOfSlot 1%nat db1 = ((200, Bookings [b]), db1) /\
    In b (bookings db1) /\
    fst (ReserveSlot book_car_1 3000 sample_db) =
      (200, SlotBooked "Slot booked" (Booking._id b) 1) /\
    ActiveBookingsOfSlot 1%nat db2 = ((200, Bookings []), db2).
Proof.
  exact (owner_bookings_follow_reservation book_car_1 complete_car_1 3000 4000
           sample_db (new_slot 0%nat "car" 0%nat 1%nat)
           sample_db_consistent eq_refl eq_refl eq_refl).
Defined.

(** ** The booking history after a resize *)

Lemma slot_lookup_after_resize req now db a s :
  slot_ids_wf db ->
  findOne (area_by_name (AreaReq.parking_area_name req)) (parking_areas db) = Some a ->
  capacity_changed req a = true ->
  In s (slots db) -> Slot.parking_id s = Area._id a ->
  findOne (slot_by_id (Slot._id s)) (slots (snd (CreateOrResizeArea req now db))) = None.
Proof.
  intros [Hnd Hfresh] Hfind Hch Hsin Hpid.
  unfold findOne. apply find_none_iff. intros x Hx.
  unfold slot_by_id. apply Nat.eqb_neq. intros Hxid.
  rewrite (resize_slots req now db a Hfind Hch) in Hx.
  apply in_app_or in Hx as [Hx | Hx].
  - unfold deleteMany in Hx. apply filter_In in Hx as [Hxin Hxp].
    assert (x = s) as -> by (apply (NoDup_map_inj Slot._id (slots db)); assumption).
    unfold slot_by_parking in Hxp. rewrite Hpid, Nat.eqb_refl in Hxp. discriminate.
  - apply generated_slot in Hx as [Hge _].
    rewrite Forall_forall in Hfresh. specialize (Hfresh s Hsin). lia.
Qed.

(** After a destructive resize, the history of a user still lists every
    booking the user had on a slot of the resized area, each with the
    placeholder "Unknown Slot" as display number: the booking keeps the id
    of a slot that no longer exists. *)
Theorem history_after_resize_shows_unknown_slot
    (req : AreaReq.t) (now : Date) (db : DB) (a : Area.t) (b : Booking.t) (s : Slot.t) :
  slot_ids_wf db ->
  findOne (area_by_name (AreaReq.parking_area_name req)) (parking_areas db) = Some a ->
  AreaReq.total_car_slots req <> Area.total_car_slots a \/
  AreaReq.total_bike_slots req <> Area.total_bike_slots a ->
  In b (bookings db) ->
  findOne (slot_by_id (Booking.slot_id b)) (slots db) = Some s ->
  Slot.parking_id s = Area._id a ->
  let db' := snd (CreateOrResizeArea req now db) in
  exists l,
    ListUserBookings (Booking.phone b) db' = ((200, BookingList l), db') /\
    (exists pb, In pb l /\ booking pb = b) /\
    (forall pb, In pb l -> booking pb = b -> slot_number pb = inr "Unknown Slot").
Proof.
  intros Hwf Hfind Hch Hb Hs Hpid db'. apply capacity_changed_spec in Hch.
  pose proof (find_some _ _ Hs) as [Hsin Hsid].
  unfold slot_by_id in Hsid. apply Nat.eqb_eq in Hsid.
  pose proof (slot_lookup_after_resize req now db a s Hwf Hfind Hch Hsin Hpid) as Hnone.
  rewrite Hsid in Hnone.
  eexists. split; [apply ListUserBookings_eq|]. subst db'.
  rewrite CreateOrResizeArea_keeps_bookings. split.
  - exists (display_of (snd (CreateOrResizeArea req now db)) b). split; [|reflexivity].
    apply in_map. eapply Permutation_in.
    + symmetry. apply sort_entry_time_desc_perm.
    + apply filter_In. split; [exact Hb|]. unfold booking_by_phone. apply String.eqb_refl.
  - intros pb Hpb Hbk. apply in_map_iff in Hpb as (b' & <- & _).
    simpl in Hbk. subst b'. simpl. rewrite Hnone. reflexivity.
Qed.

Lemma history_after_resize_witness :
  let db' := snd (CreateOrResizeArea resize_a_to_3_1 5000 booked_db) in
  let b := booking_doc book_car_1 3000 7%nat in
  exists l,
    ListUserBookings "9876543210" db' = ((200, BookingList l), db') /\
    (exists pb, In pb l /\ booking pb = b) /\
    (forall pb, In pb l -> booking pb = b -> slot_number pb = inr "Unknown Slot").
Proof.
  apply (history_after_resize_shows_unknown_slot resize_a_to_3_1 5000 booked_db
           (inc_car (-1) 1 mall_a) (booking_doc book_car_1 3000 7%nat)
           (slot_set booked (Some 7%nat) (new_slot 0%nat "car" 0%nat 1%nat))).
  - exact booked_db_slot_ids_wf.
  - reflexivity.
  - left. simpl. lia.
  - left. reflexivity.
  - reflexivity.
  - reflexivity.
Defined.

(** ** Two completions of one slot in flight *)

Section OneWinner.
Variables (req : CompleteReq.t) (now : Date) (db0 : DB).
Hypothesis Hone :
  List.length (filter (booking_active_on (CompleteReq.slot_id req)) (bookings db0)) = 1%nat.

Lemma one_active_exists :
  existsb (booking_active_on (CompleteReq.slot_id req)) (bookings db0) = true.
Proof.
  destruct (existsb _ (bookings db0)) eqn:E; [reflexivity|].
  rewrite filter_none in Hone; [discriminate|].
  intros b Hb. apply not_true_is_false. intros Hp.
  assert (existsb (booking_active_on (CompleteReq.slot_id req)) (bookings db0) = true)
    by (apply existsb_exists; eauto).
  congruence.
Qed.

Lemma none_active_after_update :
  existsb (booking_active_on (CompleteReq.slot_id req))
    (updateOne (booking_active_on (CompleteReq.slot_id req))
       (set_completed (CompleteReq.exit_time req) (CompleteReq.amount req) now)
       (bookings db0)) = false.
Proof.
  pose proof (filter_after_update_drops
                (booking_active_on (CompleteReq.slot_id req))
                (set_completed (CompleteReq.exit_time req) (CompleteReq.amount req) now)
                (bookings db0)
                (fun b => set_completed_not_active _ _ _ _ b) one_active_exists) as Hdrop.
  destruct (existsb _ (updateOne _ _ _)) eqn:E'; [|reflexivity].
  apply existsb_exists in E' as (b & Hb & Hp).
  assert (Hin : In b (filter (booking_active_on (CompleteReq.slot_id req))
                        (updateOne (booking_active_on (CompleteReq.slot_id req))
                           (set_completed (CompleteReq.exit_time req)
                              (CompleteReq.amount req) now) (bookings db0))))
    by (apply filter_In; auto).
  destruct (filter _ (updateOne _ _ _)); [contradiction | simpl in Hdrop; lia].
Qed.

Lemma stage_running (k : nat) :
  (k = 1 \/ k = 2)%nat -> finished (fst (stage k req now db0)) = None.
Proof.
  intros [-> | ->]; unfold stage; simpl; unfold matchedCount;
    rewrite one_active_exists; reflexivity.
Qed.

Lemma stage_done :
  stage 3 req now db0 =
    (Ret (200, Message "Booking completed and slot freed"), completed_db req now db0).
Proof.
  unfold stage. simpl. unfold matchedCount. rewrite one_active_exists. simpl.
  unfold completed_db, release_inc. destruct (String.eqb _ "car"); reflexivity.
Qed.

Lemma stage_bookings (k : nat) :
  (k = 1 \/ k = 2 \/ k = 3)%nat ->
  bookings (snd (stage k req now db0)) =
    updateOne (booking_active_on (CompleteReq.slot_id req))
      (set_completed (CompleteReq.exit_time req) (CompleteReq.amount req) now)
      (bookings db0).
Proof.
  intros [-> | [-> | ->]]; [| |rewrite stage_done; reflexivity];
    unfold stage; simpl; unfold matchedCount; try rewrite one_active_exists; reflexivity.
Qed.

Lemma stage_next (k : nat) :
  (k = 1 \/ k = 2 \/ k = 3)%nat ->
  exists k', (k' = 1 \/ k' = 2 \/ k' = 3)%nat /\
    step (fst (stage k req now db0)) (snd (stage k req now db0)) = stage k' req now db0.
Proof.
  intros [-> | [-> | ->]].
  - exists 2%nat. split; [auto | reflexivity].
  - exists 3%nat. split; [auto | reflexivity].
  - exists 3%nat. split; [auto|]. rewrite stage_done. reflexivity.
Qed.
End OneWinner.

Lemma step_complete_rejected req now db :
  existsb (booking_active_on (CompleteReq.slot_id req)) (bookings db) = false ->
  step (post_owner_bookings_complete req now) db = (turned_away, db).
Proof.
  intros H. unfold post_owner_bookings_complete. simpl.
  unfold matchedCount. rewrite H. simpl.
  rewrite updateOne_no_match by assumption. rewrite with_bookings_same. reflexivity.
Qed.

Lemma run_one_first (p q p' : prog Response) (db db' : DB) :
  step p db = (p', db') -> run_schedule [0%nat] [p; q] db = ([p'; q], db').
Proof. intros H. simpl. rewrite H. reflexivity. Qed.

Lemma run_one_second (p q q' : prog Response) (db db' : DB) :
  step q db = (q', db') -> run_schedule [1%nat] [p; q] db = ([p; q'], db').
Proof. intros H. simpl. rewrite H. reflexivity. Qed.

Lemma run_one_absent (p q : prog Response) (db : DB) (i : nat) :
  run_schedule [S (S i)] [p; q] db = ([p; q], db).
Proof. simpl. destruct i; reflexivity. Qed.

Lemma completions_in_flight_step c1 c2 now1 now2 db0 i pool db :
  CompleteReq.slot_id c2 = CompleteReq.slot_id c1 ->
  List.length (filter (booking_active_on (CompleteReq.slot_id c1)) (bookings db0)) = 1%nat ->
  completions_in_flight c1 c2 now1 now2 db0 pool db ->
  completions_in_flight c1 c2 now1 now2 db0
    (fst (run_schedule [i] pool db)) (snd (run_schedule [i] pool db)).
Proof.
  intros Hid Hone1.
  assert (Hone2 : List.length (filter (booking_active_on (CompleteReq.slot_id c2))
                                 (bookings db0)) = 1%nat) by (rewrite Hid; exact Hone1).
  intros [[-> ->] | [(k & other & Hk & Hother & -> & ->) | (k & other & Hk & Hother & -> & ->)]].
  - destruct i as [|[|i]].
    + rewrite (run_one_first _ _ _ _ _ (surjective_pairing _)).
      right. left. exists 1%nat, (post_owner_bookings_complete c2 now2). auto.
    + rewrite (run_one_second _ _ _ _ _ (surjective_pairing _)).
      right. right. exists 1%nat, (post_owner_bookings_complete c1 now1). auto.
    + rewrite run_one_absent. left. auto.
  - destruct i as [|[|i]].
    + rewrite (run_one_first _ _ _ _ _ (surjective_pairing _)).
      destruct (stage_next c1 now1 db0 Hone1 k Hk) as (k' & Hk' & ->).
      right. left. exists k', other. auto.
    + assert (Hstep : step other (snd (stage k c1 now1 db0))
                      = (turned_away, snd (stage k c1 now1 db0))).
      { destruct Hother as [-> | ->]; [|reflexivity].
        apply step_complete_rejected.
        rewrite Hid, (stage_bookings c1 now1 db0 Hone1 k Hk).
        apply none_active_after_update. exact Hone1. }
      rewrite (run_one_second _ _ _ _ _ Hstep).
      right. left. exists k, turned_away. auto.
    + rewrite run_one_absent. right. left. exists k, other. auto.
  - destruct i as [|[|i]].
    + assert (Hstep : step other (snd (stage k c2 now2 db0))
                      = (turned_away, snd (stage k c2 now2 db0))).
      { destruct Hother as [-> | ->]; [|reflexivity].
        apply step_complete_rejected.
        rewrite <- Hid, (stage_bookings c2 now2 db0 Hone2 k Hk).
        apply none_active_after_update. exact Hone2. }
      rewrite (run_one_first _ _ _ _ _ Hstep).
      right. right. exists k, turned_away. auto.
    + rewrite (run_one_second _ _ _ _ _ (surjective_pairing _)).
      destruct (stage_next c2 now2 db0 Hone2 k Hk) as (k' & Hk' & ->).
      right. right. exists k', other. auto.
    + rewrite run_one_absent. right. right. exists k, other. auto.
Qed.

Lemma run_schedule_cons i sched pool db :
  run_schedule (i :: sched) pool db =
    run_schedule sched (fst (run_schedule [i] pool db)) (snd (run_schedule [i] pool db)).
Proof.
  simpl. destruct (nth_error pool i) as [p|]; [|reflexivity].
  destruct (step p db); reflexivity.
Qed.

Lemma completions_in_flight_run c1 c2 now1 now2 db0 sched pool db :
  CompleteReq.slot_id c2 = CompleteReq.slot_id c1 ->
  List.length (filter (booking_active_on (CompleteReq.slot_id c1)) (bookings db0)) = 1%nat ->
  completions_in_flight c1 c2 now1 now2 db0 pool db ->
  completions_in_flight c1 c2 now1 now2 db0
    (fst (run_schedule sched pool db)) (snd (run_schedule sched pool db)).
Proof.
  intros Hid Hone. revert pool db.
  induction sched as [|i r IH]; intros pool db Hinv; [exact Hinv|].
  rewrite run_schedule_cons. apply IH.
  apply completions_in_flight_step; assumption.
Qed.

(** Two completions of one slot that has exactly one active booking, in
    flight together: however their awaits interleave, once both have
    answered exactly one was accepted and the other turned away with 400,
    and the store is the one the accepted completion leaves when it runs
    alone. The booking update is a single conditional [updateOne], so the
    counters are adjusted once. *)
Theorem concurrent_completions_one_winner
    (c1 c2 : CompleteReq.t) (now1 now2 : Date) (db0 : DB) (sched : list nat)
    (r1 r2 : Response) :
  CompleteReq.slot_id c2 = CompleteReq.slot_id c1 ->
  List.length (filter (booking_active_on (CompleteReq.slot_id c1)) (bookings db0)) = 1%nat ->
  let final := run_schedule sched
                 [post_owner_bookings_complete c1 now1;
                  post_owner_bookings_complete c2 now2] db0 in
  map finished (fst final) = [Some r1; Some r2] ->
  (r1 = (200, Message "Booking completed and slot freed") /\
   r2 = (400, Message "No active booking found") /\
   snd final = snd (CompleteBooking c1 now1 db0)) \/
  (r1 = (400, Message "No active booking found") /\
   r2 = (200, Message "Booking completed and slot freed") /\
   snd final = snd (CompleteBooking c2 now2 db0)).
Proof.
  intros Hid Hone1 final Hfin.
  assert (Hone2 : List.length (filter (booking_active_on (CompleteReq.slot_id c2))
                                 (bookings db0)) = 1%nat) by (rewrite Hid; exact Hone1).
  assert (Hinv : completions_in_flight c1 c2 now1 now2 db0 (fst final) (snd final)).
  { apply completions_in_flight_run; auto. left. auto. }
  destruct Hinv as [[Hp _] | [(k & other & Hk & Hother & Hp & Hd) | (k & other & Hk & Hother & Hp & Hd)]];
    rewrite Hp in Hfin; simpl in Hfin.
  - discriminate Hfin.
  - left. destruct Hk as [-> | [-> | ->]];
      try (rewrite stage_running in Hfin by auto; discriminate Hfin).
    rewrite (stage_done c1 now1 db0 Hone1) in Hfin, Hd. simpl in Hfin, Hd.
    destruct Hother as [-> | ->]; [discriminate Hfin|].
    injection Hfin as <- <-.
    rewrite (CompleteBooking_accepts c1 now1 db0 (one_active_exists c1 db0 Hone1)).
    auto.
  - right. destruct Hk as [-> | [-> | ->]];
      try (rewrite stage_running in Hfin by auto; discriminate Hfin).
    rewrite (stage_done c2 now2 db0 Hone2) in Hfin, Hd. simpl in Hfin, Hd.
    destruct Hother as [-> | ->]; [discriminate Hfin|].
    injection Hfin as <- <-.
    rewrite (CompleteBooking_accepts c2 now2 db0 (one_active_exists c2 db0 Hone2)).
    auto.
Qed.

Lemma concurrent_completions_witness :
  snd (run_schedule [1; 0; 1; 0; 1]%nat
         [post_owner_bookings_complete complete_car_1 4000;
          post_owner_bookings_complete complete_car_1_as_bike 4001] booked_db)
  = snd (CompleteBooking complete_car_1_as_bike 4001 booked_db).
Proof.
  destruct (concurrent_completions_one_winner complete_car_1 complete_car_1_as_bike
              4000 4001 booked_db [1; 0; 1; 0; 1]%nat
              (400, Message "No active booking found")
              (200, Message "Booking completed and slot freed")
              eq_refl eq_refl eq_refl) as [(H & _ & _) | (_ & _ & H3)].
  - discriminate H.
  - exact H3.
Defined.

(** ** Owner accounts *)

Lemma owner_phone_registered p l :
  findOne (owner_by_phone p) l = None <-> ~ In p (map Owner.phone l).
Proof.
  unfold findOne. rewrite find_none_iff. split.
  - intros H Hin. apply in_map_iff in Hin as (o & Ho & Hin).
    specialize (H o Hin). unfold owner_by_phone in H.
    apply String.eqb_neq in H. contradiction.
  - intros H o Ho. unfold owner_by_phone. apply String.eqb_neq.
    intros Heq. apply H. rewrite <- Heq. apply in_map. exact Ho.
Qed.



(** A login request without password, or with the empty string as password,
    succeeds for every registered phone: the first record of that phone is
    returned and its stored password is never compared. Nothing is
    written. *)
Theorem owner_login_needs_no_password (req : LoginReq.t) (db : DB) (o : Owner.t) :
  findOne (owner_by_phone (LoginReq.phone req)) (register_login db) = Some o ->
  LoginReq.password req = None \/ LoginReq.password req = Some "" ->
  LoginOwner req db =
    ((200, OwnerLogin "Login successful" (Owner.phone o) (Owner.parking_area_name o)), db).
Proof.
  intros Hfind Hpw. unfold LoginOwner, serve, post_owner_login.
  destruct Hpw as [-> | ->]; simpl; rewrite Hfind; reflexivity.
Qed.

(** A login request with a non-empty password succeeds exactly when some
    record has both that phone and that password; otherwise the answer is
    400 "Invalid credentials". Nothing is written. *)
Theorem owner_login_checks_given_password
    (req : LoginReq.t) (db : DB) (password : string) :
  LoginReq.password req = Some password -> password <> "" ->
  snd (LoginOwner req db) = db /\
  ((exists o, In o (register_login db) /\ Owner.phone o = LoginReq.phone req /\
              Owner.password o = password) ->
   exists o, In o (register_login db) /\ Owner.phone o = LoginReq.phone req /\
             Owner.password o = password /\
             fst (LoginOwner req db) =
               (200, OwnerLogin "Login successful" (Owner.phone o)
                       (Owner.parking_area_name o))) /\
  (~ (exists o, In o (register_login db) /\ Owner.phone o = LoginReq.phone req /\
                Owner.password o = password) ->
   fst (LoginOwner req db) = (400, Text "Invalid credentials")).
Proof.
  intros Hpw Hne. unfold LoginOwner, serve, post_owner_login. rewrite Hpw.
  assert (Ht : truthy (Some password) = true)
    by (destruct password; [contradiction | reflexivity]).
  rewrite Ht. simpl.
  destruct (findOne (owner_by_credentials (LoginReq.phone req) password) (register_login db))
    as [o|] eqn:E; simpl.
  - apply find_some in E as [Ho Hc]. unfold owner_by_credentials in Hc.
    apply andb_true_iff in Hc as [Hp Hq].
    apply String.eqb_eq in Hp. apply String.eqb_eq in Hq.
    split; [reflexivity|]. split.
    + intros _. exists o. auto.
    + intros Hno. exfalso. apply Hno. exists o. auto.
  - split; [reflexivity|]. split.
    + intros (o & Ho & Hp & Hq). exfalso.
      unfold findOne in E. pose proof (find_none _ _ E o Ho) as Hc.
      unfold owner_by_credentials in Hc. rewrite Hp, Hq, !String.eqb_refl in Hc.
      discriminate.
    + intros _. reflexivity.
Qed.

Lemma owner_login_needs_no_password_witness :
  LoginOwner login_without_password owners_db =
    ((200, OwnerLogin "Login successful" "9123456780" "Mall A"), owners_db).
Proof.
  apply (owner_login_needs_no_password login_without_password owners_db
           {| Owner._id := 7%nat; Owner.phone := "9123456780";
              Owner.parking_area_name := "Mall A"; Owner.password := "s3cret";
              Owner.createdAt := 500; Owner.updatedAt := None |}).
  - reflexivity.
  - left. reflexivity.
Defined.

Lemma owner_login_checks_given_password_witness :
  snd (LoginOwner login_with_wrong_password owners_db) = owners_db /\
  fst (LoginOwner login_with_wrong_password owners_db) = (400, Text "Invalid credentials").
Proof.
  destruct (owner_login_checks_given_password login_with_wrong_password owners_db "guess"
              eq_refl) as (Hsame & _ & Hbad).
  - discriminate.
  - split; [exact Hsame|]. apply Hbad.
    intros (o & [<- | []] & _ & Hpw). discriminate Hpw.
Defined.

Lemma LoginOwner_with_password (req : LoginReq.t) (db : DB) (password : string) :
  LoginReq.password req = Some password -> password <> "" ->
  LoginOwner req db =
    (match findOne (owner_by_credentials (LoginReq.phone req) password)
             (register_login db) with
     | Some user => (200, OwnerLogin "Login successful" (Owner.phone user)
                            (Owner.parking_area_name user))
     | None => (400, Text "Invalid credentials")
     end, db).
Proof.
  intros Hpw Hne. unfold LoginOwner, serve, post_owner_login. rewrite Hpw.
  assert (Ht : truthy (Some password) = true)
    by (destruct password; [contradiction | reflexivity]).
  rewrite Ht. simpl. destruct (findOne _ (register_login db)); reflexivity.
Qed.

(** An owner who has just been registered under a new phone with a non-empty
    password can log in with that phone and password, and is told the area
    name given at registration. *)
Theorem register_then_login (req : OwnerReq.t) (now : Date) (db : DB) :
  ~ In (OwnerReq.phone req) (map Owner.phone (register_login db)) ->
  OwnerReq.password req <> "" ->
  let db1 := snd (RegisterOwner req now db) in
  LoginOwner {| LoginReq.phone := OwnerReq.phone req;
                LoginReq.password := Some (OwnerReq.password req) |} db1 =
    ((200, OwnerLogin "Login successful" (OwnerReq.phone req)
             (OwnerReq.parking_area_name req)), db1).
Proof.
  intros Hnew Hpw db1. subst db1.
  apply owner_phone_registered in Hnew.
  rewrite (LoginOwner_with_password
             {| LoginReq.phone := OwnerReq.phone req;
                LoginReq.password := Some (OwnerReq.password req) |}
             _ (OwnerReq.password req) eq_refl Hpw).
  unfold RegisterOwner, serve, post_owner_register. simpl. rewrite Hnew. simpl.
  unfold findOne. rewrite find_app_none_then.
  - simpl. unfold owner_by_credentials. simpl. rewrite !String.eqb_refl. reflexivity.
  - apply find_none_iff. intros o Ho. unfold owner_by_credentials. simpl.
    unfold findOne in Hnew. pose proof (find_none _ _ Hnew o Ho) as H.
    unfold owner_by_phone in H. rewrite H. reflexivity.
Qed.

Lemma register_then_login_witness :
  LoginOwner login_with_password owners_db =
    ((200, OwnerLogin "Login successful" "9123456780" "Mall A"), owners_db).
Proof.
  apply (register_then_login owner_of_mall_a 500 sample_db).
  - simpl. tauto.
  - discriminate.
Defined.

Lemma CreateOrResizeArea_owners req now db :
  register_login (snd (CreateOrResizeArea req now db)) =
    updateOne (owner_by_phone (AreaReq.name req))
      (set_owner_area (AreaReq.parking_area_name req) now) (register_login db).
Proof.
  unfold CreateOrResizeArea, post_owner_parking_areas. simpl.
  destruct (findOne _ (parking_areas db)) as [a|]; simpl.
  - destruct (_ || _); simpl; [|reflexivity].
    destruct (_ ++ _); reflexivity.
  - destruct (_ ++ _); reflexivity.
Qed.

(** Every create-or-update of an area, the ones that end in 500 included,
    writes the area name of the request into the first owner record whose
    phone is the request's [name]: that owner's next login reports this
    area name. Owner records of other phones are not changed. *)
Theorem upsert_links_owner_to_area (req : AreaReq.t) (now : Date) (db : DB) (o : Owner.t) :
  findOne (owner_by_phone (AreaReq.name req)) (register_login db) = Some o ->
  let db' := snd (CreateOrResizeArea req now db) in
  LoginOwner {| LoginReq.phone := AreaReq.name req; LoginReq.password := None |} db' =
    ((200, OwnerLogin "Login successful" (Owner.phone o) (AreaReq.parking_area_name req)),
     db') /\
  (forall p, p <> AreaReq.name req ->
     findOne (owner_by_phone p) (register_login db') =
     findOne (owner_by_phone p) (register_login db)).
Proof.
  intros Hfind db'. subst db'. split.
  - unfold LoginOwner, serve, post_owner_login. simpl.
    rewrite CreateOrResizeArea_owners. unfold findOne.
    rewrite find_updateOne_same by reflexivity.
    unfold findOne in Hfind. rewrite Hfind. reflexivity.
  - intros p Hp. rewrite CreateOrResizeArea_owners. unfold findOne.
    apply find_updateOne_other; [reflexivity|].
    intros x Hx. unfold owner_by_phone in *. apply String.eqb_eq in Hx.
    apply String.eqb_neq. congruence.
Qed.

Lemma upsert_links_owner_witness :
  let db' := snd (CreateOrResizeArea rename_to_mall_a2 8000 owners_db) in
  LoginOwner login_without_password db' =
    ((200, OwnerLogin "Login successful" "9123456780" "Mall A2"), db') /\
  (forall p, p <> "9123456780" ->
     findOne (owner_by_phone p) (register_login db') =
     findOne (owner_by_phone p) (register_login owners_db)).
Proof.
  exact (upsert_links_owner_to_area rename_to_mall_a2 8000 owners_db
           {| Owner._id := 7%nat; Owner.phone := "9123456780";
              Owner.parking_area_name := "Mall A"; Owner.password := "s3cret";
              Owner.createdAt := 500; Owner.updatedAt := None |} eq_refl).
Defined.

(** ** Connecting to the database at startup *)

Lemma connect_loop_retry connect attempt r :
  connect attempt = false ->
  connect_loop connect attempt (S (S r)) =
    (ConsoleError "MongoDB connection failed:"
       :: LogRetrying (5 - Z.of_nat (S r))
       :: Sleep 2000 :: fst (connect_loop connect (S attempt) (S r)),
     snd (connect_loop connect (S attempt) (S r))).
Proof.
  intros H.
  change (connect_loop connect attempt (S (S r))) with
    (if connect attempt
     then ([ConsoleLog "Connected to MongoDB"], ReturnsDb "ParkingSystem")
     else let '(events, result) := connect_loop connect (S attempt) (S r) in
          (ConsoleError "MongoDB connection failed:"
             :: LogRetrying (5 - Z.of_nat (S r))
             :: Sleep 2000 :: events,
           result)).
  rewrite H. destruct (connect_loop connect (S attempt) (S r)). reflexivity.
Qed.

Lemma attempts_made_retry k events result :
  attempts_made (ConsoleError "MongoDB connection failed:"
                   :: LogRetrying k :: Sleep 2000 :: events, result)
  = S (attempts_made (events, result)).
Proof. reflexivity. Qed.

Lemma time_slept_retry k events result :
  time_slept (ConsoleError "MongoDB connection failed:"
                :: LogRetrying k :: Sleep 2000 :: events, result)
  = 2000 + time_slept (events, result).
Proof. reflexivity. Qed.

Lemma connect_loop_succeeds connect k : forall attempt retries,
  (k < retries)%nat ->
  connect (attempt + k)%nat = true ->
  (forall j, (j < k)%nat -> connect (attempt + j)%nat = false) ->
  let run := connect_loop connect attempt retries in
  snd run = ReturnsDb "ParkingSystem" /\
  attempts_made run = S k /\
  time_slept run = 2000 * Z.of_nat k.
Proof.
  induction k as [|k IH]; intros attempt retries Hlt Hok Hfail.
  - destruct retries as [|r]; [lia|].
    rewrite Nat.add_0_r in Hok. cbn [connect_loop]. rewrite Hok. repeat split.
  - destruct retries as [|[|r]]; [lia | lia |].
    assert (H0 : connect attempt = false)
      by (rewrite <- (Nat.add_0_r attempt); apply Hfail; lia).
    destruct (IH (S attempt) (S r)) as (Hres & Hatt & Hsl).
    + lia.
    + rewrite <- Hok. f_equal. lia.
    + intros j Hj. replace (S attempt + j)%nat with (attempt + S j)%nat by lia.
      apply Hfail. lia.
    + cbv zeta. rewrite (connect_loop_retry connect attempt r H0).
      rewrite attempts_made_retry, time_slept_retry.
      rewrite <- surjective_pairing. rewrite Hatt, Hsl.
      split; [exact Hres|]. split; [reflexivity | lia].
Qed.

Lemma connect_loop_gives_up connect : forall retries attempt,
  (0 < retries)%nat ->
  (forall j, (j < retries)%nat -> connect (attempt + j)%nat = false) ->
  let run := connect_loop connect attempt retries in
  snd run = ProcessExit 1 /\
  attempts_made run = retries /\
  time_slept run = 2000 * (Z.of_nat retries - 1).
Proof.
  induction retries as [|r IH]; intros attempt Hpos Hfail; [lia|].
  assert (H0 : connect attempt = false)
    by (rewrite <- (Nat.add_0_r attempt); apply Hfail; lia).
  destruct r as [|r].
  - cbn [connect_loop]. rewrite H0. repeat split.
  - destruct (IH (S attempt)) as (Hres & Hatt & Hsl).
    + lia.
    + intros j Hj. replace (S attempt + j)%nat with (attempt + S j)%nat by lia.
      apply Hfail. lia.
    + cbv zeta. rewrite (connect_loop_retry connect attempt r H0).
      rewrite attempts_made_retry, time_slept_retry.
      rewrite <- surjective_pairing. rewrite Hatt, Hsl.
      split; [exact Hres|]. split; [reflexivity | lia].
Qed.

(** [connectDB] calls [client.connect()] until it succeeds, at most five
    times, sleeping two seconds after each failure but the fifth. When call
    number k (from 0, below 5) is the first to succeed it returns the
    "ParkingSystem" database after k + 1 calls and 2k seconds of sleep. *)
Theorem connectDB_returns_at_first_success (connect : nat -> bool) (k : nat) :
  (k < 5)%nat ->
  connect k = true ->
  (forall j, (j < k)%nat -> connect j = false) ->
  snd (connectDB connect) = ReturnsDb "ParkingSystem" /\
  attempts_made (connectDB connect) = S k /\
  time_slept (connectDB connect) = 2000 * Z.of_nat k.
Proof.
  intros Hlt Hok Hfail. apply (connect_loop_succeeds connect k 0 5); auto.
Qed.

Lemma connectDB_returns_witness :
  snd (connectDB up_at_third) = ReturnsDb "ParkingSystem" /\
  attempts_made (connectDB up_at_third) = 3%nat /\
  time_slept (connectDB up_at_third) = 4000.
Proof.
  apply (connectDB_returns_at_first_success up_at_third 2).
  - lia.
  - reflexivity.
  - intros [|[|j]] Hj; [reflexivity | reflexivity | lia].
Defined.

(** When the first five calls of [client.connect()] all fail, [connectDB]
    ends the process with exit code 1 after exactly five calls and eight
    seconds of sleep; a sixth call is never made. *)
Theorem connectDB_exits_after_five_failures (connect : nat -> bool) :
  (forall j, (j < 5)%nat -> connect j = false) ->
  snd (connectDB connect) = ProcessExit 1 /\
  attempts_made (connectDB connect) = 5%nat /\
  time_slept (connectDB connect) = 8000.
Proof.
  intros Hfail. apply (connect_loop_gives_up connect 5 0); [lia | exact Hfail].
Qed.

Lemma connectDB_exits_witness :
  snd (connectDB never_up) = ProcessExit 1 /\
  attempts_made (connectDB never_up) = 5%nat /\
  time_slept (connectDB never_up) = 8000.
Proof.
  apply (connectDB_exits_after_five_failures never_up).
  intros j _. reflexivity.
Defined.

(** ** User accounts *)

Lemma find_user_after_append p l u :
  findOne (user_by_phone p) l = None -> User.phone u = p ->
  findOne (user_by_phone p) (l ++ [u]) = Some u.
Proof.
  intros Hnone Hp. unfold findOne. rewrite find_app_none_then by exact Hnone.
  simpl. unfold user_by_phone. rewrite Hp, String.eqb_refl. reflexivity.
Qed.

(** Registering a user is idempotent. A phone that is already registered is
    answered 200 with the stored user and nothing is written. A new phone is
    answered 201 and one user is appended, with "User" as name and empty
    plates where the request has none or an empty string. In both cases the
    user can log in afterwards, and the same request sent again is answered
    200 and leaves the store as it is. *)
Theorem user_registration_is_idempotent
    (req : RegisterReq.t) (now now' : Date) (st : UserStore) :
  let res := fst (post_users_register req now st) in
  let st' := snd (post_users_register req now st) in
  (forall u, findOne (user_by_phone (RegisterReq.phone req)) (users st) = Some u ->
     res = (200, WithUser "User already exists" u) /\ st' = st) /\
  (findOne (user_by_phone (RegisterReq.phone req)) (users st) = None ->
     exists u,
       res = (201, WithUser "User registered successfully" u) /\
       users st' = users st ++ [u] /\
       User.phone u = RegisterReq.phone req /\
       User.name u = match RegisterReq.name req with
                     | Some (String c r) => String c r
                     | _ => "User"
                     end /\
       User.car_number_plate u = match RegisterReq.car_number_plate req with
                                 | Some v => v
                                 | None => ""
                                 end /\
       User.bike_number_plate u = match RegisterReq.bike_number_plate req with
                                  | Some v => v
                                  | None => ""
                                  end) /\
  (exists u,
     post_users_login (RegisterReq.phone req) st' = ((200, WithUser "Login successful" u), st') /\
     User.phone u = RegisterReq.phone req /\
     post_users_register req now' st' = ((200, WithUser "User already exists" u), st')).
Proof.
  intros res st'. subst res st'. unfold post_users_register.
  destruct (findOne (user_by_phone (RegisterReq.phone req)) (users st)) as [u|] eqn:E.
  - split; [intros u' [= <-]; auto|]. split; [discriminate|].
    exists u. simpl. unfold post_users_login. rewrite E.
    apply find_some in E as [_ Hp]. unfold user_by_phone in Hp.
    apply String.eqb_eq in Hp. auto.
  - split; [discriminate|]. split.
    + intros _. eexists. split; [reflexivity|]. simpl.
      split; [reflexivity|]. split; [reflexivity|].
      split; [destruct (RegisterReq.name req) as [[|c r]|]; reflexivity|].
      split; [destruct (RegisterReq.car_number_plate req) as [[|c r]|]; reflexivity|].
      destruct (RegisterReq.bike_number_plate req) as [[|c r]|]; reflexivity.
    + simpl. unfold post_users_login. cbn [users].
      erewrite find_user_after_append; [|exact E|reflexivity].
      eexists. split; [reflexivity|]. split; [reflexivity|]. reflexivity.
Qed.

(** Updating the profile of a phone that is not registered is answered 404
    and changes nothing. For a registered phone the first user of that phone
    gets the three fields of the request and [updatedAt]; its id, phone and
    creation date stay, the answer carries the updated user, the profile
    route returns it afterwards, and users of other phones are untouched. *)
Theorem profile_update_round_trip (req : ProfileReq.t) (now : Date) (st : UserStore) :
  let res := fst (put_users_profile req now st) in
  let st' := snd (put_users_profile req now st) in
  (findOne (user_by_phone (ProfileReq.phone req)) (users st) = None ->
     res = (404, UserText "User not found") /\ st' = st) /\
  (forall u, findOne (user_by_phone (ProfileReq.phone req)) (users st) = Some u ->
     exists u',
       res = (200, Updated "Profile updated successfully" (Some u')) /\
       get_users_profile (ProfileReq.phone req) st' = ((200, Profile u'), st') /\
       (User.name u', User.car_number_plate u', User.bike_number_plate u') =
       (ProfileReq.name req, ProfileReq.car_number_plate req,
        ProfileReq.bike_number_plate req) /\
       User.updatedAt u' = Some now /\
       (User._id u', User.phone u', User.createdAt u') =
       (User._id u, User.phone u, User.createdAt u)) /\
  (forall p, p <> ProfileReq.phone req ->
     findOne (user_by_phone p) (users st') = findOne (user_by_phone p) (users st)) /\
  map User.phone (users st') = map User.phone (users st).
Proof.
  intros res st'. subst res st'. unfold put_users_profile, matchedCount.
  split; [|split; [|split]].
  - intros Hnone. unfold findOne in Hnone.
    assert (He : existsb (user_by_phone (ProfileReq.phone req)) (users st) = false).
    { destruct (existsb _ (users st)) eqn:E; [|reflexivity].
      apply existsb_exists in E as (x & Hx & Hp).
      rewrite (find_none _ _ Hnone x Hx) in Hp. discriminate. }
    rewrite He. simpl. rewrite updateOne_no_match by exact He.
    destruct st; auto.
  - intros u Hu.
    assert (He : existsb (user_by_phone (ProfileReq.phone req)) (users st) = true).
    { apply existsb_exists. exists u. apply (find_some _ _ Hu). }
    rewrite He. simpl. unfold get_users_profile. simpl.
    unfold findOne in *. rewrite find_updateOne_same by reflexivity.
    rewrite Hu. simpl. eexists. split; [reflexivity|]. split; [reflexivity|].
    simpl. auto.
  - intros p Hp. destruct (existsb _ (users st)); simpl;
      unfold findOne; (apply find_updateOne_other; [reflexivity|]);
      intros x Hx; unfold user_by_phone in *; apply String.eqb_eq in Hx;
      apply String.eqb_neq; congruence.
  - destruct (existsb _ (users st)); simpl; apply updateOne_map; reflexivity.
Qed.
